(** * Few-shot trainers of [fs/ln_only.py] and [fs/twostage.py]

    A shallow embedding of the control logic of the two training recipes:
    the epoch functions with their iteration budget, the gradient-scaler
    skip test, the epoch log line, the selective-inference classifier with
    its cached matrix, the evaluator and the two-stage orchestrator.

    Python [int] is [Z]; Python [float] is the kernel's binary64 [float],
    whose operations are the IEEE operations Python uses; a [dict] keyed by
    class names is a [gmap string _]; an exception is a [Raised] outcome.
    Tensor computations of the numerical library (encoders, normalisation,
    matrix products) are parameters of the sections that use them. *)

From Stdlib Require Import ZArith Lia Bool.
From Stdlib Require Import Uint63 Floats.
From stdpp Require Import gmap strings list.

Local Open Scope Z_scope.

(** ** Python values and exceptions *)

Inductive exn : Type :=
  | ZeroDivisionError
  | OverflowError
  | ValueError
  | KeyError
  | IndexError
  | RuntimeError.

Inductive outcome (A : Type) : Type :=
  | Returned (a : A)
  | Raised (e : exn).
Arguments Returned {A} a.
Arguments Raised {A} e.

(** Sequencing: an exception ends the computation. *)
Definition and_then {A B : Type} (o : outcome A) (k : A -> outcome B) : outcome B :=
  match o with
  | Returned a => k a
  | Raised e => Raised e
  end.

Notation "'let!' x ':=' o 'in' k" := (and_then o (fun x => k))
  (at level 10, x name, o at level 100, k at level 200).

(** [float(z)] for a Python int: the nearest double, ties to even, and
    [OverflowError] when that would be infinite.  Below [2^63] this is the
    primitive conversion. *)
Definition py_float_of_int (z : Z) : outcome float :=
  if Z.abs z <? 2 ^ 63 then
    Returned (if z <? 0 then PrimFloat.opp (PrimFloat.of_uint63 (Uint63.of_Z (- z)))
              else PrimFloat.of_uint63 (Uint63.of_Z z))
  else
    match binary_normalize prec emax z 0 false with
    | S754_infinity _ => Raised OverflowError
    | sf => Returned (SF2Prim sf)
    end.

(** [int * float]: the int is converted, then the doubles are multiplied. *)
Definition py_mul_int_float (z : Z) (x : float) : outcome float :=
  let! d := py_float_of_int z in
  Returned (PrimFloat.mul d x).

(** [float / int]: the int is converted, a zero divisor raises. *)
Definition py_truediv (x : float) (n : Z) : outcome float :=
  let! d := py_float_of_int n in
  if n =? 0 then Raised ZeroDivisionError else Returned (PrimFloat.div x d).

(** [int(x)] of a float: truncation toward zero; [ValueError] on a NaN,
    [OverflowError] on an infinity. *)
Definition trunc_spec_float (sf : spec_float) : outcome Z :=
  match sf with
  | S754_zero _ => Returned 0
  | S754_finite s m e =>
      Returned (if 0 <=? e then cond_Zopp s (Z.pos m) * 2 ^ e
                else Z.quot (cond_Zopp s (Z.pos m)) (2 ^ (- e)))
  | S754_infinity _ => Raised OverflowError
  | S754_nan => Raised ValueError
  end.

(** [int(x)]. *)
Definition py_int (x : float) : outcome Z := trunc_spec_float (Prim2SF x).

(** The same value rounded down (toward minus infinity), the way the
    specification words the stage-1 sub-budget. *)
Definition floor_spec_float (sf : spec_float) : option Z :=
  match sf with
  | S754_zero _ => Some 0
  | S754_finite s m e =>
      Some (if 0 <=? e then cond_Zopp s (Z.pos m) * 2 ^ e
            else Z.div (cond_Zopp s (Z.pos m)) (2 ^ (- e)))
  | S754_infinity _ | S754_nan => None
  end.

(** The floor of a finite double. *)
Definition float_floor (x : float) : option Z := floor_spec_float (Prim2SF x).

(** [a > b] on doubles. *)
Definition py_gt (a b : float) : bool := PrimFloat.ltb b a.

(** ** What an epoch function sees of its collaborators *)

(** One batch of the train loader, as the loop body observes it: the batch
    size and the values returned by [cls_acc], [loss.item()] and the two
    [scaler.get_scale()] reads around [scaler.update()].  A tensor
    dimension is below [2^63], hence the type of [batch_size]. *)
Record batch : Type := {
  batch_size : int;
  batch_acc : float;
  batch_loss : float;
  scale_before : float;
  scale_after : float
}.

(** The cosine scheduler: its horizon and the number of [step()] calls. *)
Record scheduler : Type := {
  T_max : Z;
  last_epoch : Z
}.

(** [torch.optim.lr_scheduler.CosineAnnealingLR(optimizer, horizon, ...)]. *)
Definition CosineAnnealingLR (horizon : Z) : scheduler :=
  {| T_max := horizon; last_epoch := 0 |}.

(** [scheduler.step()]. *)
Definition scheduler_step (s : scheduler) : scheduler :=
  {| T_max := T_max s; last_epoch := last_epoch s + 1 |}.

(** [scheduler.get_last_lr()[0]], a function of the scheduler's state. *)
Class LrSchedule : Type := get_last_lr : scheduler -> float.

(** The line printed after a pass: '[count/total] LR, Acc, Loss'. *)
Record log_line : Type := {
  log_count : Z;
  log_total : Z;
  log_lr : float;
  log_acc : float;
  log_loss : float
}.

(** The local variables of an epoch function, and the scheduler it mutates;
    [batches_run] counts the executions of the loop body. *)
Record pass : Type := {
  count_iters : Z;
  acc_train : float;
  loss_epoch : float;
  tot_samples : Z;
  sched : scheduler;
  batches_run : nat
}.

(** The state in front of the batch loop: the accumulators at zero. *)
Definition enter_pass (s : scheduler) (count : Z) : pass :=
  {| count_iters := count; acc_train := 0; loss_epoch := 0; tot_samples := 0;
     sched := s; batches_run := 0 |}.

(** What a call leaves behind: the value returned or the exception, the
    lines printed, and the state at the exit of the batch loop. *)
Record epoch_result : Type := {
  epoch_outcome : outcome Z;
  epoch_printed : list log_line;
  epoch_pass : pass
}.

(** The statements after the batch loop, the same in the three epoch
    functions: average and print when [count_iters <= total_iters]. *)
Definition finish_epoch `{LrSchedule} (total_iters : Z) (p : pass) : epoch_result :=
  if count_iters p <=? total_iters then
    match
      let! acc := py_truediv (acc_train p) (tot_samples p) in
      let! loss := py_truediv (loss_epoch p) (tot_samples p) in
      Returned {| log_count := count_iters p; log_total := total_iters;
                  log_lr := get_last_lr (sched p);
                  log_acc := acc; log_loss := loss |}
    with
    | Returned line =>
        {| epoch_outcome := Returned (count_iters p); epoch_printed := [line];
           epoch_pass := p |}
    | Raised e =>
        {| epoch_outcome := Raised e; epoch_printed := []; epoch_pass := p |}
    end
  else
    {| epoch_outcome := Returned (count_iters p); epoch_printed := [];
       epoch_pass := p |}.

(** [acc += x * target.shape[0]]. *)
Definition accumulate (b : batch) (acc : float) (x : float) : float :=
  PrimFloat.add acc (PrimFloat.mul x (PrimFloat.of_uint63 (batch_size b))).

(** ** fs/ln_only.py *)

Module LnOnly.

(** Lines 38-50: the scheduler steps and the counter grows every batch. *)
Definition batch_body (b : batch) (p : pass) : pass :=
  {| count_iters := count_iters p + 1;
     acc_train := accumulate b (acc_train p) (batch_acc b);
     loss_epoch := accumulate b (loss_epoch p) (batch_loss b);
     tot_samples := tot_samples p + Uint63.to_Z (batch_size b);
     sched := scheduler_step (sched p);
     batches_run := S (batches_run p) |}.

(** Lines 18-52: the loop over the loader, with its [break]. *)
Fixpoint batch_loop (total_iters : Z) (train_loader : list batch) (p : pass) : pass :=
  match train_loader with
  | [] => p
  | b :: rest =>
      let p' := batch_body b p in
      if count_iters p' =? total_iters then p'
      else batch_loop total_iters rest p'
  end.

(** Lines 9-64.  The model, the optimizer and the scaler act through what
    the batches record; the scheduler and the counter are threaded. *)
Definition train_epoch `{LrSchedule} (s : scheduler) (train_loader : list batch)
    (count total_iters : Z) : epoch_result :=
  finish_epoch total_iters (batch_loop total_iters train_loader (enter_pass s count)).

End LnOnly.

(** ** fs/twostage.py: the epoch functions *)

Module TwoStage.

(** Lines 164-166 and 223-225: [skip_lr_sched = (scale > scaler.get_scale())],
    with [scale] read before [scaler.update()]. *)
Definition skip_lr_sched (b : batch) : bool :=
  py_gt (scale_before b) (scale_after b).

(** Lines 163-175 and 222-234. *)
Definition batch_body (b : batch) (p : pass) : pass :=
  {| count_iters := if skip_lr_sched b then count_iters p else count_iters p + 1;
     acc_train := accumulate b (acc_train p) (batch_acc b);
     loss_epoch := accumulate b (loss_epoch p) (batch_loss b);
     tot_samples := tot_samples p + Uint63.to_Z (batch_size b);
     sched := if skip_lr_sched b then sched p else scheduler_step (sched p);
     batches_run := S (batches_run p) |}.

(** Lines 201-238: the loop of [train_epoch]. *)
Fixpoint first_stage_loop (total_iters : Z) (train_loader : list batch) (p : pass) : pass :=
  match train_loader with
  | [] => p
  | b :: rest =>
      let p' := batch_body b p in
      if count_iters p' =? total_iters then p'
      else first_stage_loop total_iters rest p'
  end.

(** Lines 192-247. *)
Definition train_epoch `{LrSchedule} (s : scheduler) (train_loader : list batch)
    (count total_iters : Z) : epoch_result :=
  finish_epoch total_iters (first_stage_loop total_iters train_loader (enter_pass s count)).

(** Lines 151-179: the loop of [train_epoch_second_stage]. *)
Fixpoint second_stage_loop (total_iters : Z) (train_loader : list batch) (p : pass) : pass :=
  match train_loader with
  | [] => p
  | b :: rest =>
      let p' := batch_body b p in
      if count_iters p' =? total_iters then p'
      else second_stage_loop total_iters rest p'
  end.

(** Lines 145-188. *)
Definition train_epoch_second_stage `{LrSchedule} (s : scheduler)
    (train_loader : list batch) (count total_iters : Z) : epoch_result :=
  finish_epoch total_iters (second_stage_loop total_iters train_loader (enter_pass s count)).

End TwoStage.

(** ** fs/twostage.py: the selective-inference classifier *)

(** The tensor operations of the numerical library and of the pretrained
    encoder, taken as given: a [tensor] is one embedding row, a matrix is
    the list of its rows. *)
Class Backend : Type := {
  tensor : Type;
  images : Type;
  target : Type;
  logits : Type;
  (** [clip_model.encode_text(tokenize_texts(template, classnames))] *)
  encode_text : string -> list string -> list tensor;
  (** [self.backbone(x)] *)
  backbone : images -> list tensor;
  (** [row / row.norm(dim=-1, keepdim=True)] *)
  normalize : tensor -> tensor;
  (** [row.float()] *)
  to_float : tensor -> tensor;
  (** [row.to(x)] *)
  to_like : images -> tensor -> tensor;
  (** [self.logit_scale.exp() * x @ classifier.t()] *)
  similarity : list tensor -> list tensor -> logits;
  cls_acc : logits -> target -> float;
  (** [len(logits)] *)
  len : logits -> int
}.

(** A Python dict filled in iteration order: a later pair replaces an
    earlier one with the same key. *)
Definition dict_of {V : Type} (pairs : list (string * V)) : gmap string V :=
  foldl (fun d kv => <[kv.1 := kv.2]> d) ∅ pairs.

(** [{cat: i for i, cat in enumerate(classnames)}] *)
Definition enumerate_dict (classnames : list string) : gmap string nat :=
  dict_of (zip classnames (seq 0 (length classnames))).

(** [torch.stack]: the rows in order; an empty list is refused. *)
Definition stack {T : Type} (rows : list T) : outcome (list T) :=
  match rows with
  | [] => Raised RuntimeError
  | _ => Returned rows
  end.

Module SingleStreamClassifier.
Section WithBackend.
Context `{Backend}.

(** The attributes of an instance; [inference_classifier] is [None] when
the attribute does not exist.  [text_encodings] is not an attribute:
it records the class-name lists sent to the text encoder by [infer]. *)
Record t : Type := {
classifier : list tensor;
cat2id : gmap string nat;
inference_classifier : option (list tensor);
text_encodings : list (list string)
}.

(** Lines 40-65: [__init__] with [_init_classifier]. *)
Definition init (classnames : list string) (template : string) : t :=
{| classifier := to_float <$> (normalize <$> encode_text template classnames);
 cat2id := enumerate_dict classnames;
 inference_classifier := None;
 text_encodings := [] |}.

(** Lines 68-76. *)
Definition forward (self : t) (x : images) : logits :=
similarity (normalize <$> backbone x) (normalize <$> classifier self).

(** Line 89. *)
Definition missing_classnames (self : t) (categories : list string) : list string :=
filter (fun cat => cat2id self !! cat = None) categories.

(** Line 96: the rows of known categories; indexing past the last row
raises. *)
Fixpoint cat2known (self : t) (categories : list string)
(d : gmap string tensor) : outcome (gmap string tensor) :=
match categories with
| [] => Returned d
| cat :: rest =>
  match cat2id self !! cat with
  | None => cat2known self rest d
  | Some i =>
      match classifier self !! i with
      | Some row => cat2known self rest (<[cat := row]> d)
      | None => Raised IndexError
      end
  end
end.

(** Line 102: one row per category, in the order of [categories]. *)
Fixpoint pick_rows (cat2new known : gmap string tensor)
(categories : list string) : outcome (list tensor) :=
match categories with
| [] => Returned []
| cat :: rest =>
  let! row := match cat2new !! cat with
        | Some r => Returned r
        | None => match known !! cat with
                  | Some r => Returned r
                  | None => Raised KeyError
                  end
        end in
  let! rows := pick_rows cat2new known rest in
  Returned (row :: rows)
end.

(** Lines 89-104: the matrix assembled when no cached one is used. *)
Definition build_classifier (self : t) (x : images) (categories : list string)
(template : string) : outcome (list tensor) :=
let missing := missing_classnames self categories in
let new_embeddings := encode_text template missing in
let cat2new := dict_of (zip missing new_embeddings) in
let! known := cat2known self categories ∅ in
let! rows := pick_rows cat2new known categories in
let! stacked := stack rows in
Returned (normalize <$> (to_like x <$> stacked)).

(** Lines 80-113.  The result pairs the value returned (or the exception)
with the instance as the call leaves it. *)
Definition infer (self : t) (x : images) (categories : list string)
(template : string) (compute_classifier_once : bool) : outcome logits * t :=
match (if compute_classifier_once then inference_classifier self else None) with
| Some cached =>
  (Returned (similarity (normalize <$> backbone x) cached), self)
| None =>
  let encoded :=
    {| classifier := classifier self; cat2id := cat2id self;
       inference_classifier := inference_classifier self;
       text_encodings := text_encodings self ++ [missing_classnames self categories] |} in
  match build_classifier self x categories template with
  | Raised e => (Raised e, encoded)
  | Returned built =>
      (Returned (similarity (normalize <$> backbone x) built),
       {| classifier := classifier self; cat2id := cat2id self;
          inference_classifier := Some built;
          text_encodings := text_encodings encoded |})
  end
end.

(** Lines 123-124. *)
Definition drop_cache (model : t) : t :=
{| classifier := classifier model; cat2id := cat2id model;
 inference_classifier := None;
 text_encodings := text_encodings model |}.

(** Lines 130-139: the loop of the evaluator over [(images, target)]. *)
Fixpoint eval_loop (loader : list (images * target)) (template : string)
(classnames : list string) (acc : float) (tot_samples : Z) (model : t)
: outcome (float * Z) * t :=
match loader with
| [] => (Returned (acc, tot_samples), model)
| (x, tgt) :: rest =>
  match infer model x classnames template true with
  | (Raised e, model') => (Raised e, model')
  | (Returned lg, model') =>
      eval_loop rest template classnames
        (PrimFloat.add acc (PrimFloat.mul (cls_acc lg tgt) (PrimFloat.of_uint63 (len lg))))
        (tot_samples + Uint63.to_Z (len lg)) model'
  end
end.

(** Lines 117-142. *)
Definition evaluate_selective_inference (model : t) (loader : list (images * target))
(template : string) (classnames : list string) : outcome float * t :=
match eval_loop loader template classnames 0 0 (drop_cache model) with
| (Raised e, model') => (Raised e, model')
| (Returned (acc, tot_samples), model') => (py_truediv acc tot_samples, model')
end.

End WithBackend.
End SingleStreamClassifier.

(** ** fs/twostage.py: the orchestrator *)

(** The configuration fields the training part of [run_twostage] reads. *)
Record args : Type := {
  n_iters : Z;
  shots : Z;
  n_iters_frac : float;
  debug : bool
}.

(** Where a [while] loop of the orchestrator stands: the counter, the
    scheduler, the passes not yet consumed and the lines printed so far. *)
Record stage : Type := {
  stage_count : Z;
  stage_sched : scheduler;
  stage_rest : list (list batch);
  stage_printed : list log_line
}.

(** Lines 273-286 and 300-310: [while count_iters < budget], one epoch call
    per turn, [break] after the first turn under [args.debug].  The k-th
    element of [epochs] is what the k-th pass over the train loader
    observes; [None] means that the loop asks for a pass beyond the ones
    supplied. *)
Fixpoint while_below (epoch : scheduler -> list batch -> Z -> Z -> epoch_result)
    (dbg : bool) (budget : Z) (epochs : list (list batch))
    (s : scheduler) (count : Z) (out : list log_line) : option (outcome stage) :=
  if count <? budget then
    match epochs with
    | [] => None
    | e :: rest =>
        let r := epoch s e count budget in
        match epoch_outcome r with
        | Raised ex => Some (Raised ex)
        | Returned count' =>
            if dbg then
              Some (Returned {| stage_count := count'; stage_sched := sched (epoch_pass r);
                                stage_rest := rest;
                                stage_printed := out ++ epoch_printed r |})
            else
              while_below epoch dbg budget rest (sched (epoch_pass r)) count'
                (out ++ epoch_printed r)
        end
    end
  else
    Some (Returned {| stage_count := count; stage_sched := s; stage_rest := epochs;
                      stage_printed := out |}).

(** What the training part of [run_twostage] computes. *)
Record training : Type := {
  total_iters : Z;
  cosine_iters : Z;
  first_stage : stage;
  second_stage_iters : Z;
  second_stage : stage
}.

Module Orchestrator.

(** Line 261. *)
Definition total_iters_of (a : args) : Z := n_iters a * shots a.

(** Line 262: [int(total_iters*args.n_iters_frac)]. *)
Definition cosine_iters_of (a : args) : outcome Z :=
  let! x := py_mul_int_float (total_iters_of a) (n_iters_frac a) in
  py_int x.

(** Lines 261-310 of [run_twostage]: both training stages. *)
Definition run_twostage `{LrSchedule} (a : args) (epochs : list (list batch))
    : option (outcome training) :=
  let total := total_iters_of a in
  match cosine_iters_of a with
  | Raised ex => Some (Raised ex)
  | Returned cosine =>
      match while_below TwoStage.train_epoch (debug a) cosine epochs
              (CosineAnnealingLR cosine) 0 [] with
      | None => None
      | Some (Raised ex) => Some (Raised ex)
      | Some (Returned st1) =>
          let second := total - stage_count st1 in
          match while_below TwoStage.train_epoch_second_stage (debug a) total
                  (stage_rest st1) (CosineAnnealingLR second) (stage_count st1)
                  (stage_printed st1) with
          | None => None
          | Some (Raised ex) => Some (Raised ex)
          | Some (Returned st2) =>
              Some (Returned {| total_iters := total; cosine_iters := cosine;
                                first_stage := st1; second_stage_iters := second;
                                second_stage := st2 |})
          end
      end
  end.

End Orchestrator.

(** ** fs/ln_only.py: the driver *)

Module SingleStage.

(** Lines 71-105 of [run_ln_only]: the budget, the scheduler over the whole
    budget, and the [while] loop over [train_epoch].  As for the two-stage
    loops, the k-th element of [epochs] is what the k-th pass over the
    train loader observes. *)
Definition run_ln_only `{LrSchedule} (a : args) (epochs : list (list batch))
    : option (outcome stage) :=
  let total := n_iters a * shots a in
  while_below LnOnly.train_epoch (debug a) total epochs (CosineAnnealingLR total) 0 [].

End SingleStage.

(** ** fs/twostage.py: the evaluation at the end of [run_twostage] *)

Module Dataset.

(** The fields of [dataset] that the evaluation reads. *)
Record t : Type := {
  template : list string;
  classnames : list string;
  test_classnames : list string;
  test_new_classnames : list string
}.

End Dataset.

(** [test_loader] as the caller packs it: a pair of loaders when
    [args.setting == "base2new"], one loader otherwise. *)
Inductive test_loaders `{Backend} : Type :=
  | BaseAndNew (test_base_loader test_new_loader : list (images * target))
  | AllCategories (test_loader : list (images * target)).

(** Lines 313-339: the result mapping.  [dataset.template[0]] raises on an
    empty sequence. *)
Definition test_after_training `{Backend} (model : SingleStreamClassifier.t)
    (dataset : Dataset.t) (loaders : test_loaders)
    : outcome (gmap string float) * SingleStreamClassifier.t :=
  match Dataset.template dataset with
  | [] => (Raised IndexError, model)
  | template :: _ =>
      match loaders with
      | BaseAndNew test_base_loader test_new_loader =>
          match SingleStreamClassifier.evaluate_selective_inference model test_base_loader
                  template (Dataset.test_classnames dataset) with
          | (Raised e, model1) => (Raised e, model1)
          | (Returned acc_test_base, model1) =>
              match SingleStreamClassifier.evaluate_selective_inference model1
                      test_new_loader template (Dataset.test_new_classnames dataset) with
              | (Raised e, model2) => (Raised e, model2)
              | (Returned acc_test_new, model2) =>
                  (Returned (dict_of [("acc_test_base", acc_test_base);
                                      ("acc_test_new", acc_test_new)]), model2)
              end
          end
      | AllCategories test_loader =>
          match SingleStreamClassifier.evaluate_selective_inference model test_loader
                  template (Dataset.classnames dataset) with
          | (Raised e, model1) => (Raised e, model1)
          | (Returned acc_test, model1) =>
              (Returned (dict_of [("acc_test", acc_test)]), model1)
          end
      end
  end.

(** ** Notions used by the statements *)

(** The common shape of the three batch loops. *)
Fixpoint run_until (body : batch -> pass -> pass) (total : Z)
    (loader : list batch) (p : pass) : pass :=
  match loader with
  | [] => p
  | b :: rest =>
      let p' := body b p in
      if count_iters p' =? total then p' else run_until body total rest p'
  end.

(** The batches of [loader] on which the loop body of the pass [p] ran. *)
Definition processed (loader : list batch) (p : pass) : list batch :=
  take (batches_run p) loader.

(** The batches after which the two-stage body advances. *)
Definition advancing (bs : list batch) : list batch :=
  filter (fun b => TwoStage.skip_lr_sched b = false) bs.

(** An epoch function in front of its budget, for one call: the counter at
    the exit of the loop is within the budget and is the value returned;
    the call returns when the samples can be averaged; once a prefix of the
    loader has brought the counter to the budget the batches behind it are
    not run; and the loop leaves batches unrun only at the budget. *)
Definition stops_at_budget (epoch : list batch -> Z -> Z -> epoch_result)
    (loader : list batch) (count total : Z) : Prop :=
  let r := epoch loader count total in
  count_iters (epoch_pass r) <= total /\
  (forall c, epoch_outcome r = Returned c -> c = count_iters (epoch_pass r) /\ c <= total) /\
  (0 < tot_samples (epoch_pass r) < 2 ^ 63 ->
     epoch_outcome r = Returned (count_iters (epoch_pass r))) /\
  (forall pre post, loader = pre ++ post ->
     count_iters (epoch_pass (epoch pre count total)) = total ->
     r = epoch pre count total /\ (batches_run (epoch_pass r) <= length pre)%nat) /\
  ((batches_run (epoch_pass r) < length loader)%nat ->
     count_iters (epoch_pass r) = total).

(** A loop body that counts its runs and moves the counter up by at most one. *)
Definition unit_step (body : batch -> pass -> pass) : Prop :=
  forall b p,
    batches_run (body b p) = S (batches_run p) /\
    tot_samples (body b p) = tot_samples p + Uint63.to_Z (batch_size b) /\
    (count_iters (body b p) = count_iters p \/ count_iters (body b p) = count_iters p + 1).

(** The line an epoch call prints from the pass [p] when it prints one. *)
Definition epoch_line `{LrSchedule} (total : Z) (p : pass) (acc loss : float) : log_line :=
  {| log_count := count_iters p; log_total := total;
     log_lr := get_last_lr (sched p); log_acc := acc; log_loss := loss |}.

(** The averages of a pass can be computed: both divisions by the sample
    count return. *)
Definition averaged (p : pass) (acc loss : float) : Prop :=
  py_truediv (acc_train p) (tot_samples p) = Returned acc /\
  py_truediv (loss_epoch p) (tot_samples p) = Returned loss.

(** When an epoch call prints its line: exactly when the counter after the
    pass is at most the budget and the averages can be computed, and then
    the line carries them and the call returns the counter.  A counter
    beyond the budget prints nothing and is returned; a sample count of
    zero prints nothing and raises; a sample count from one to below
    [2^63] can be averaged; and a call that starts below the budget ends
    at or below it. *)
Definition prints_line_exactly `{LrSchedule} (epoch : list batch -> Z -> Z -> epoch_result)
    (loader : list batch) (count total : Z) : Prop :=
  let r := epoch loader count total in
  let p := epoch_pass r in
  (epoch_printed r <> [] <->
   count_iters p <= total /\ exists acc loss, averaged p acc loss) /\
  (forall acc loss, count_iters p <= total -> averaged p acc loss ->
     epoch_printed r = [epoch_line total p acc loss] /\
     epoch_outcome r = Returned (count_iters p)) /\
  (total < count_iters p ->
     epoch_printed r = [] /\ epoch_outcome r = Returned (count_iters p)) /\
  (count_iters p <= total -> tot_samples p = 0 ->
     epoch_printed r = [] /\ epoch_outcome r = Raised ZeroDivisionError) /\
  (0 < tot_samples p < 2 ^ 63 -> exists acc loss, averaged p acc loss) /\
  (count < total -> count_iters p <= total).

(** An epoch call on a loader without batches: the averaging divides by
    zero when the counter is within the budget, and is not reached
    otherwise. *)
Definition on_empty_loader `{LrSchedule} (s : scheduler) (count total : Z) : epoch_result :=
  if count <=? total then
    {| epoch_outcome := Raised ZeroDivisionError; epoch_printed := [];
       epoch_pass := enter_pass s count |}
  else
    {| epoch_outcome := Returned count; epoch_printed := [];
       epoch_pass := enter_pass s count |}.

(** The indices that [cat2id] gives to the categories exist as rows of the
    classifier matrix. *)
Definition rows_in_range `{Backend} (self : SingleStreamClassifier.t)
    (categories : list string) : bool :=
  forallb (fun cat =>
             match SingleStreamClassifier.cat2id self !! cat with
             | Some i => bool_decide (i < length (SingleStreamClassifier.classifier self))%nat
             | None => true
             end) categories.

(** What [infer] needs to assemble a matrix for [categories]: there is a
    category, the known ones index existing rows, and the text encoder
    answers with one row per class name. *)
Definition can_assemble `{Backend} (self : SingleStreamClassifier.t)
    (template : string) (categories : list string) : Prop :=
  categories <> [] /\
  rows_in_range self categories = true /\
  length (encode_text template (SingleStreamClassifier.missing_classnames self categories))
    = length (SingleStreamClassifier.missing_classnames self categories).

(** The instance with [matrix] as its cached inference classifier, after
    one more call of the text encoder on [encoded]. *)
Definition with_cache `{Backend} (self : SingleStreamClassifier.t)
    (matrix : list tensor) (encoded : list string) : SingleStreamClassifier.t :=
  {| SingleStreamClassifier.classifier := SingleStreamClassifier.classifier self;
     SingleStreamClassifier.cat2id := SingleStreamClassifier.cat2id self;
     SingleStreamClassifier.inference_classifier := Some matrix;
     SingleStreamClassifier.text_encodings :=
       SingleStreamClassifier.text_encodings self ++ [encoded] |}.

(** The accuracy sum and the sample count of an evaluation in which every
    batch is scored against the one matrix [matrix]. *)
Fixpoint tally `{Backend} (matrix : list tensor) (loader : list (images * target))
    (acc : float) (tot_samples : Z) : float * Z :=
  match loader with
  | [] => (acc, tot_samples)
  | (x, tgt) :: rest =>
      let lg := similarity (normalize <$> backbone x) matrix in
      tally matrix rest
        (PrimFloat.add acc (PrimFloat.mul (cls_acc lg tgt) (PrimFloat.of_uint63 (len lg))))
        (tot_samples + Uint63.to_Z (len lg))
  end.

(** The number of samples in a list of batches. *)
Definition samples (bs : list batch) : Z :=
  foldr (fun b n => Uint63.to_Z (batch_size b) + n) 0 bs.

(** A pass over [e] that lets the two-stage loops progress: the scaler
    does not skip every step, no batch is empty, and the sample count is a
    machine-size number. *)
Definition productive (e : list batch) : bool :=
  existsb (fun b => negb (TwoStage.skip_lr_sched b)) e &&
  forallb (fun b => 0 <? Uint63.to_Z (batch_size b)) e &&
  (samples e <? 2 ^ 63).

(** An epoch function that, called below its budget, returns a counter
    between the incoming one and the budget, and a strictly larger one on
    a productive pass; it leaves the horizon of the scheduler alone. *)
Definition budgeted (epoch : scheduler -> list batch -> Z -> Z -> epoch_result) : Prop :=
  forall s e count budget,
    count < budget ->
    (forall c, epoch_outcome (epoch s e count budget) = Returned c -> count <= c <= budget) /\
    (productive e = true ->
     exists c, epoch_outcome (epoch s e count budget) = Returned c /\ count < c <= budget) /\
    T_max (sched (epoch_pass (epoch s e count budget))) = T_max s.

(** A double that is not below zero, read on its specification: a zero,
    or a finite number or an infinity with a clear sign bit. *)
Definition not_negative (sf : spec_float) : Prop :=
  match sf with
  | S754_zero _ | S754_nan => True
  | S754_finite s _ _ | S754_infinity s => s = false
  end.

(** A pass whose averages can be computed: it has a batch, no batch is
    empty, and the sample count is a machine-size number. *)
Definition measurable (e : list batch) : bool :=
  match e with
  | [] => false
  | _ => forallb (fun b => 0 <? Uint63.to_Z (batch_size b)) e && (samples e <? 2 ^ 63)
  end.

(** A measurable pass on which the scaler skips every step. *)
Definition stalls (e : list batch) : bool :=
  forallb TwoStage.skip_lr_sched e && measurable e.

(** An epoch function that, called below its budget, returns a counter
    between the incoming one and the budget, and a strictly larger one on
    the passes that [good] accepts. *)
Definition advances_on (good : list batch -> bool)
    (epoch : scheduler -> list batch -> Z -> Z -> epoch_result) : Prop :=
  forall s e count budget,
    count < budget ->
    (forall c, epoch_outcome (epoch s e count budget) = Returned c -> count <= c <= budget) /\
    (good e = true ->
     exists c, epoch_outcome (epoch s e count budget) = Returned c /\ count < c <= budget).

(** An epoch function that steps the scheduler exactly as often as it
    raises the counter it returns, and leaves the horizon alone. *)
Definition in_step (epoch : scheduler -> list batch -> Z -> Z -> epoch_result) : Prop :=
  forall s e count budget c,
    epoch_outcome (epoch s e count budget) = Returned c ->
    last_epoch (sched (epoch_pass (epoch s e count budget))) - c = last_epoch s - count /\
    T_max (sched (epoch_pass (epoch s e count budget))) = T_max s.

(** The row that stands for [cat] in an assembled matrix, before the cast
    and the normalisation, when the text encoder embeds each class name by
    [enc]: the row of the classifier matrix for a known category, the
    embedding of the name otherwise. *)
Definition row_for `{Backend} (self : SingleStreamClassifier.t) (enc : string -> tensor)
    (cat : string) : option tensor :=
  match SingleStreamClassifier.cat2id self !! cat with
  | Some i => SingleStreamClassifier.classifier self !! i
  | None => Some (enc cat)
  end.

(** The instance after one more call of the text encoder on [encoded]
    that did not lead to a matrix. *)
Definition after_encoding `{Backend} (self : SingleStreamClassifier.t)
    (encoded : list string) : SingleStreamClassifier.t :=
  {| SingleStreamClassifier.classifier := SingleStreamClassifier.classifier self;
     SingleStreamClassifier.cat2id := SingleStreamClassifier.cat2id self;
     SingleStreamClassifier.inference_classifier :=
       SingleStreamClassifier.inference_classifier self;
     SingleStreamClassifier.text_encodings :=
       SingleStreamClassifier.text_encodings self ++ [encoded] |}.

(** [epoch_calls epoch budget n st st']: from the loop state [st], [n] calls
    of [epoch] made one after the other, each started with a counter below
    [budget] on the next pass and each returning, lead to [st']. *)
Inductive epoch_calls (epoch : scheduler -> list batch -> Z -> Z -> epoch_result)
    (budget : Z) : nat -> stage -> stage -> Prop :=
  | calls_none (st : stage) : epoch_calls epoch budget 0 st st
  | calls_next (n : nat) (s : scheduler) (count : Z) (out : list log_line)
      (e : list batch) (rest : list (list batch)) (c : Z) (st' : stage) :
      count < budget ->
      epoch_outcome (epoch s e count budget) = Returned c ->
      epoch_calls epoch budget n
        {| stage_count := c; stage_sched := sched (epoch_pass (epoch s e count budget));
           stage_rest := rest;
           stage_printed := out ++ epoch_printed (epoch s e count budget) |} st' ->
      epoch_calls epoch budget (S n)
        {| stage_count := count; stage_sched := s; stage_rest := e :: rest;
           stage_printed := out |} st'.

(** A matrix whose rows all come out of the row normalisation. *)
Definition normalised `{Backend} (matrix : list tensor) : Prop :=
  exists rows, matrix = normalize <$> rows.

(** The cached inference classifier, when there is one, is normalised. *)
Definition cache_normalised `{Backend} (self : SingleStreamClassifier.t) : Prop :=
  match SingleStreamClassifier.inference_classifier self with
  | Some matrix => normalised matrix
  | None => True
  end.

(** ** Concrete inputs *)

(** A learning-rate reading that ignores the scheduler. *)
Definition flat_lr : LrSchedule := fun _ => 0.5%float.

(** A batch of four samples after which the scaler keeps its scale. *)
Definition steady_batch : batch :=
  {| batch_size := 4; batch_acc := 75; batch_loss := 0.5;
     scale_before := 65536; scale_after := 65536 |}.

(** A batch on which the scaler found an overflow and halved its scale. *)
Definition overflow_batch : batch :=
  {| batch_size := 4; batch_acc := 25; batch_loss := 2;
     scale_before := 65536; scale_after := 32768 |}.

(** A batch after which the scaler doubled its scale. *)
Definition growth_batch : batch :=
  {| batch_size := 4; batch_acc := 100; batch_loss := 0.25;
     scale_before := 65536; scale_after := 131072 |}.

(** A backend over symbolic rows: a row is the text it was computed from,
    and each operation leaves its mark on it. *)
Definition symbolic : Backend :=
  {| tensor := string;
     images := string;
     target := unit;
     logits := list string * list string;
     encode_text := fun template classnames =>
       (fun c => String.append template (String.append ":" c)) <$> classnames;
     backbone := fun x => [x];
     normalize := fun r => String.append "unit " r;
     to_float := fun r => r;
     to_like := fun _ r => r;
     similarity := fun xs rows => (xs, rows);
     cls_acc := fun _ _ => 50%float;
     len := fun _ => 2%uint63 |}.

(** A classifier trained on dog and cat. *)
Definition pets : SingleStreamClassifier.t (H := symbolic) :=
  SingleStreamClassifier.init (H := symbolic) ["dog"; "cat"] "a photo of a {}.".

(** The same instance holding a matrix cached by an earlier evaluation. *)
Definition pets_after_evaluation : SingleStreamClassifier.t (H := symbolic) :=
  {| SingleStreamClassifier.classifier := SingleStreamClassifier.classifier pets;
     SingleStreamClassifier.cat2id := SingleStreamClassifier.cat2id pets;
     SingleStreamClassifier.inference_classifier := Some ["stale row"];
     SingleStreamClassifier.text_encodings := [["owl"]] |}.

(** Half of six iterations for the first stage. *)
Definition half_and_half : args :=
  {| n_iters := 3; shots := 2; n_iters_frac := 0.5; debug := false |}.

(** Six passes of three batches, the second of them skipped by the scaler. *)
Definition six_passes : list (list batch) :=
  replicate 6 [steady_batch; overflow_batch; steady_batch].

(** A configuration for the single-stage driver: six iterations. *)
Definition six_iterations : args :=
  {| n_iters := 3; shots := 2; n_iters_frac := 1; debug := false |}.

(** Two passes of two batches on which the scaler skips every step. *)
Definition two_stalled_passes : list (list batch) :=
  replicate 2 [overflow_batch; overflow_batch].

(** The configuration [half_and_half] in debug mode. *)
Definition half_and_half_debug : args :=
  {| n_iters := 3; shots := 2; n_iters_frac := 0.5; debug := true |}.

(** A dataset with base classes dog and cat and novel classes owl and fox. *)
Definition pets_dataset : Dataset.t :=
  {| Dataset.template := ["a photo of a {}."];
     Dataset.classnames := ["dog"; "cat"];
     Dataset.test_classnames := ["dog"; "cat"];
     Dataset.test_new_classnames := ["owl"; "fox"] |}.

Module SSC := SingleStreamClassifier.

(** * Properties *)

(** ** The batch loops *)

Ltac same_loop loader p :=
  revert p; induction loader as [|b rest IH]; intros p; simpl;
  [reflexivity | now rewrite IH].

Lemma ln_loop_shape total loader p :
  LnOnly.batch_loop total loader p = run_until LnOnly.batch_body total loader p.
Proof. same_loop loader p. Qed.

Lemma first_stage_shape total loader p :
  TwoStage.first_stage_loop total loader p = run_until TwoStage.batch_body total loader p.
Proof. same_loop loader p. Qed.

Lemma second_stage_shape total loader p :
  TwoStage.second_stage_loop total loader p = run_until TwoStage.batch_body total loader p.
Proof. same_loop loader p. Qed.

Create HintDb loops.
Create Rewrite HintDb loop_shapes.
#[local] Hint Rewrite ln_loop_shape first_stage_shape second_stage_shape : loop_shapes.

(** Brings an epoch function to [finish_epoch] after [run_until]. *)
Ltac as_run_until :=
  unfold LnOnly.train_epoch, TwoStage.train_epoch, TwoStage.train_epoch_second_stage;
  autorewrite with loop_shapes; try reflexivity.

Lemma ln_body_unit_step : unit_step LnOnly.batch_body.
Proof. intros b p; simpl; auto. Qed.

Lemma twostage_body_unit_step : unit_step TwoStage.batch_body.
Proof. intros b p; simpl. destruct (TwoStage.skip_lr_sched b); auto. Qed.

#[local] Hint Resolve ln_body_unit_step twostage_body_unit_step : loops.

Section Loop.
Variable body : batch -> pass -> pass.
Hypothesis Hbody : unit_step body.

Lemma run_until_le total loader p :
  count_iters p < total -> count_iters (run_until body total loader p) <= total.
Proof using Hbody.
  revert p; induction loader as [|b rest IH]; intros p Hp; simpl; [lia|].
  destruct (Z.eqb_spec (count_iters (body b p)) total) as [->|Hne]; [lia|].
  apply IH. destruct (Hbody b p) as (_ & _ & [E|E]); lia.
Qed.

Lemma run_until_ge total loader p :
  count_iters p <= count_iters (run_until body total loader p).
Proof using Hbody.
  revert p; induction loader as [|b rest IH]; intros p; simpl; [lia|].
  destruct (Hbody b p) as (_ & _ & E).
  destruct (Z.eqb_spec (count_iters (body b p)) total) as [Heq|Hne]; [lia|].
  specialize (IH (body b p)). lia.
Qed.

Lemma run_until_prefix total pre post p :
  count_iters p < total ->
  count_iters (run_until body total pre p) = total ->
  run_until body total (pre ++ post) p = run_until body total pre p.
Proof using Hbody.
  revert p; induction pre as [|b pre IH]; intros p Hp Hreach; simpl in *; [lia|].
  destruct (Z.eqb_spec (count_iters (body b p)) total) as [Heq|Hne]; [reflexivity|].
  apply IH; [|assumption]. destruct (Hbody b p) as (_ & _ & [E|E]); lia.
Qed.

Lemma run_until_runs total loader p :
  (batches_run p <= batches_run (run_until body total loader p)
     <= batches_run p + length loader)%nat.
Proof using Hbody.
  revert p; induction loader as [|b rest IH]; intros p; simpl; [lia|].
  destruct (Hbody b p) as (Hrun & _).
  destruct (count_iters (body b p) =? total); [lia|].
  specialize (IH (body b p)). lia.
Qed.

Lemma run_until_early total loader p :
  (batches_run (run_until body total loader p) < batches_run p + length loader)%nat ->
  count_iters (run_until body total loader p) = total.
Proof using Hbody.
  revert p; induction loader as [|b rest IH]; intros p; simpl; [lia|].
  destruct (Hbody b p) as (Hrun & _).
  destruct (Z.eqb_spec (count_iters (body b p)) total) as [Heq|Hne]; [auto|].
  intros Hlt. apply IH. lia.
Qed.

End Loop.

(** ** Averaging and the end of an epoch call *)

Lemma py_truediv_zero x : py_truediv x 0 = Raised ZeroDivisionError.
Proof. reflexivity. Qed.

Lemma py_truediv_pos x n :
  0 < n < 2 ^ 63 ->
  py_truediv x n = Returned (PrimFloat.div x (PrimFloat.of_uint63 (Uint63.of_Z n))).
Proof.
  intros Hn. unfold py_truediv, py_float_of_int.
  destruct (Z.ltb_spec (Z.abs n) (2 ^ 63)) as [_|Habs]; [|lia].
  destruct (Z.ltb_spec n 0) as [Hneg|_]; [lia|]. simpl.
  destruct (Z.eqb_spec n 0) as [Hz|_]; [lia|reflexivity].
Qed.

Section Finish.
Context `{LrSchedule}.

Lemma finish_epoch_pass total p : epoch_pass (finish_epoch total p) = p.
Proof.
  unfold finish_epoch. destruct (count_iters p <=? total); [|reflexivity].
  destruct (py_truediv (acc_train p) (tot_samples p)); simpl; [|reflexivity].
  destruct (py_truediv (loss_epoch p) (tot_samples p)); reflexivity.
Qed.

Lemma finish_epoch_returned total p c :
  epoch_outcome (finish_epoch total p) = Returned c -> c = count_iters p.
Proof.
  unfold finish_epoch. destruct (count_iters p <=? total); [|simpl; congruence].
  destruct (py_truediv (acc_train p) (tot_samples p)); simpl; [|congruence].
  destruct (py_truediv (loss_epoch p) (tot_samples p)); simpl; congruence.
Qed.

Lemma finish_epoch_averaged total p :
  0 < tot_samples p < 2 ^ 63 ->
  epoch_outcome (finish_epoch total p) = Returned (count_iters p).
Proof.
  intros Htot. unfold finish_epoch.
  destruct (count_iters p <=? total); [|reflexivity].
  now rewrite !py_truediv_pos by assumption.
Qed.

Lemma finish_epoch_over total p :
  total < count_iters p ->
  finish_epoch total p =
    {| epoch_outcome := Returned (count_iters p); epoch_printed := []; epoch_pass := p |}.
Proof.
  intros Hover. unfold finish_epoch.
  destruct (Z.leb_spec (count_iters p) total); [lia|reflexivity].
Qed.

Lemma finish_epoch_empty total p :
  count_iters p <= total -> tot_samples p = 0 ->
  finish_epoch total p =
    {| epoch_outcome := Raised ZeroDivisionError; epoch_printed := []; epoch_pass := p |}.
Proof.
  intros Hle Hzero. unfold finish_epoch.
  destruct (Z.leb_spec (count_iters p) total); [|lia].
  now rewrite Hzero.
Qed.

Lemma finish_epoch_logged total p :
  count_iters p <= total -> 0 < tot_samples p < 2 ^ 63 ->
  exists acc loss,
    py_truediv (acc_train p) (tot_samples p) = Returned acc /\
    py_truediv (loss_epoch p) (tot_samples p) = Returned loss /\
    finish_epoch total p =
      {| epoch_outcome := Returned (count_iters p);
         epoch_printed := [ {| log_count := count_iters p; log_total := total;
                               log_lr := get_last_lr (sched p);
                               log_acc := acc; log_loss := loss |} ];
         epoch_pass := p |}.
Proof.
  intros Hle Htot. unfold finish_epoch.
  destruct (Z.leb_spec (count_iters p) total); [|lia].
  rewrite !py_truediv_pos by assumption. simpl. eauto.
Qed.

(** The three epoch functions share one shape. *)
Lemma stops_at_budget_shape body s epoch loader count total :
  unit_step body ->
  (forall l, epoch l count total =
             finish_epoch total (run_until body total l (enter_pass s count))) ->
  count < total ->
  stops_at_budget epoch loader count total.
Proof.
  intros Hbody Hshape Hlt. unfold stops_at_budget.
  rewrite !Hshape, finish_epoch_pass.
  set (p := run_until body total loader (enter_pass s count)).
  assert (Hle : count_iters p <= total) by (now apply run_until_le).
  split; [exact Hle|].
  split; [intros c Hc; apply finish_epoch_returned in Hc; lia|].
  split; [apply finish_epoch_averaged|].
  split.
  - intros pre post -> Hreach.
    rewrite Hshape, finish_epoch_pass in Hreach. rewrite Hshape.
    subst p. rewrite run_until_prefix by assumption.
    split; [reflexivity|].
    pose proof (run_until_runs body Hbody total pre (enter_pass s count)) as Hr.
    simpl in Hr. lia.
  - intros Hearly. apply run_until_early; [assumption|]. simpl. exact Hearly.
Qed.
End Finish.

(** ** The iteration budget *)

(** C1.  For each of the three epoch functions, called with a counter
    strictly below the budget: the counter at the exit of the batch loop,
    which is the value the call returns, is at most the budget; and the
    loop breaks in the batch in which the counter reaches the budget, so
    the batches that remain in the loader are not run. *)
Theorem epoch_counter_within_budget `{LrSchedule} (s : scheduler)
    (loader : list batch) (count total : Z) :
  count < total ->
  stops_at_budget (LnOnly.train_epoch s) loader count total /\
  stops_at_budget (TwoStage.train_epoch s) loader count total /\
  stops_at_budget (TwoStage.train_epoch_second_stage s) loader count total.
Proof.
  intros Hlt. split; [|split].
  - apply (stops_at_budget_shape LnOnly.batch_body s); auto with loops.
    intros l. as_run_until.
  - apply (stops_at_budget_shape TwoStage.batch_body s); auto with loops.
    intros l. as_run_until.
  - apply (stops_at_budget_shape TwoStage.batch_body s); auto with loops.
    intros l. as_run_until.
Qed.

Lemma epoch_counter_within_budget_witness :
  1 < 3 /\
  stops_at_budget (LnOnly.train_epoch (H := flat_lr) (CosineAnnealingLR 3))
    [steady_batch; overflow_batch; steady_batch; steady_batch] 1 3 /\
  stops_at_budget (TwoStage.train_epoch (H := flat_lr) (CosineAnnealingLR 3))
    [steady_batch; overflow_batch; steady_batch; steady_batch] 1 3 /\
  stops_at_budget (TwoStage.train_epoch_second_stage (H := flat_lr) (CosineAnnealingLR 3))
    [steady_batch; overflow_batch; steady_batch; steady_batch] 1 3.
Proof.
  split; [lia|].
  apply (epoch_counter_within_budget (H := flat_lr) (CosineAnnealingLR 3)
           [steady_batch; overflow_batch; steady_batch; steady_batch] 1 3).
  lia.
Defined.

(** The single-stage pass above stops after two of its four batches, the
    two-stage pass after three, both at the budget. *)
Example budget_reached_mid_pass :
  let loader := [steady_batch; overflow_batch; steady_batch; steady_batch] in
  let one := LnOnly.train_epoch (H := flat_lr) (CosineAnnealingLR 3) loader 1 3 in
  let two := TwoStage.train_epoch (H := flat_lr) (CosineAnnealingLR 3) loader 1 3 in
  epoch_outcome one = Returned 3 /\ batches_run (epoch_pass one) = 2%nat /\
  epoch_outcome two = Returned 3 /\ batches_run (epoch_pass two) = 3%nat.
Proof. vm_compute. auto. Qed.

(** ** What a pass adds to the counter and to the scheduler *)

Lemma advancing_cons b bs :
  advancing (b :: bs) =
    if TwoStage.skip_lr_sched b then advancing bs else b :: advancing bs.
Proof.
  unfold advancing. destruct (TwoStage.skip_lr_sched b) eqn:E.
  - rewrite filter_cons_False; [reflexivity | congruence].
  - rewrite filter_cons_True; [reflexivity | assumption].
Qed.

Lemma advancing_length bs : (length (advancing bs) <= length bs)%nat.
Proof. apply length_filter. Qed.

Lemma advancing_skipped bs b :
  b ∈ bs -> TwoStage.skip_lr_sched b = true ->
  (length (advancing bs) < length bs)%nat.
Proof.
  induction bs as [|a bs IH]; intros Hin Hskip; [inversion Hin|].
  rewrite advancing_cons. simpl.
  apply elem_of_cons in Hin as [<-|Hin].
  - rewrite Hskip. pose proof (advancing_length bs). lia.
  - specialize (IH Hin Hskip). destruct (TwoStage.skip_lr_sched a); simpl; lia.
Qed.

(** Single stage: every batch run counts and steps the scheduler. *)
Lemma ln_pass_counts total loader p :
  let q := run_until LnOnly.batch_body total loader p in
  count_iters q = count_iters p + Z.of_nat (batches_run q - batches_run p) /\
  last_epoch (sched q) = last_epoch (sched p) + Z.of_nat (batches_run q - batches_run p) /\
  T_max (sched q) = T_max (sched p).
Proof.
  revert p; induction loader as [|b rest IH]; intros p; simpl.
  - rewrite Nat.sub_diag. simpl. lia.
  - destruct (Z.eqb_spec (count_iters p + 1) total) as [Heq|Hne].
    + simpl. replace (S (batches_run p) - batches_run p)%nat with 1%nat by lia. lia.
    + specialize (IH (LnOnly.batch_body b p)). simpl in IH.
      pose proof (run_until_runs _ ln_body_unit_step total rest (LnOnly.batch_body b p)) as Hr.
      simpl in Hr. destruct IH as (Hc & Hl & Ht). lia.
Qed.

(** Two stages: only the batches that the scaler did not skip do. *)
Lemma twostage_pass_counts total loader p :
  let q := run_until TwoStage.batch_body total loader p in
  let seen := take (batches_run q - batches_run p) loader in
  count_iters q = count_iters p + Z.of_nat (length (advancing seen)) /\
  last_epoch (sched q) = last_epoch (sched p) + Z.of_nat (length (advancing seen)) /\
  T_max (sched q) = T_max (sched p).
Proof.
  revert p; induction loader as [|b rest IH]; intros p; cbn [run_until].
  - cbn zeta. rewrite take_nil. simpl. lia.
  - destruct (Z.eqb_spec (count_iters (TwoStage.batch_body b p)) total) as [Heq|Hne].
    + cbn zeta. cbn [TwoStage.batch_body batches_run].
      replace (S (batches_run p) - batches_run p)%nat with 1%nat by lia.
      cbn [take]. rewrite take_0, advancing_cons.
      destruct (TwoStage.skip_lr_sched b) eqn:E; simpl; rewrite ?E; simpl; lia.
    + specialize (IH (TwoStage.batch_body b p)).
      pose proof (run_until_runs _ twostage_body_unit_step total rest
                    (TwoStage.batch_body b p)) as Hr.
      set (q := run_until TwoStage.batch_body total rest (TwoStage.batch_body b p)) in *.
      cbn zeta in *. cbn [TwoStage.batch_body batches_run] in IH, Hr.
      replace (batches_run q - batches_run p)%nat
        with (S (batches_run q - S (batches_run p))) by lia.
      cbn [take]. rewrite advancing_cons.
      destruct IH as (Hc & Hl & Ht).
      destruct (TwoStage.skip_lr_sched b) eqn:E; simpl in *; rewrite ?E in *; simpl in *; lia.
Qed.

Section Epochs.
Context `{LrSchedule}.

Lemma ln_epoch_pass s loader count total :
  epoch_pass (LnOnly.train_epoch s loader count total) =
    run_until LnOnly.batch_body total loader (enter_pass s count).
Proof. unfold LnOnly.train_epoch. now rewrite finish_epoch_pass, ln_loop_shape. Qed.

Lemma first_stage_pass s loader count total :
  epoch_pass (TwoStage.train_epoch s loader count total) =
    run_until TwoStage.batch_body total loader (enter_pass s count).
Proof. unfold TwoStage.train_epoch. now rewrite finish_epoch_pass, first_stage_shape. Qed.

Lemma second_stage_same s loader count total :
  TwoStage.train_epoch_second_stage s loader count total =
    TwoStage.train_epoch s loader count total.
Proof.
  unfold TwoStage.train_epoch_second_stage, TwoStage.train_epoch.
  now rewrite first_stage_shape, second_stage_shape.
Qed.

Lemma first_stage_counts s loader count total :
  let two := epoch_pass (TwoStage.train_epoch s loader count total) in
  count_iters two = count + Z.of_nat (length (advancing (processed loader two))) /\
  last_epoch (sched two) = last_epoch s + Z.of_nat (length (advancing (processed loader two))) /\
  T_max (sched two) = T_max s.
Proof.
  cbn zeta. rewrite first_stage_pass. unfold processed.
  pose proof (twostage_pass_counts total loader (enter_pass s count)) as Hc.
  cbn zeta in Hc. cbn [enter_pass batches_run count_iters sched] in Hc.
  now rewrite Nat.sub_0_r in Hc.
Qed.

Lemma ln_epoch_counts s loader count total :
  let one := epoch_pass (LnOnly.train_epoch s loader count total) in
  count_iters one = count + Z.of_nat (batches_run one) /\
  last_epoch (sched one) = last_epoch s + Z.of_nat (batches_run one) /\
  T_max (sched one) = T_max s.
Proof.
  cbn zeta. rewrite ln_epoch_pass.
  pose proof (ln_pass_counts total loader (enter_pass s count)) as Hc.
  cbn zeta in Hc. cbn [enter_pass batches_run count_iters sched] in Hc.
  now rewrite Nat.sub_0_r in Hc.
Qed.

End Epochs.

(** ** Unconditional and gated counting *)

(** C2, as amended.  The single-stage epoch function adds one to the
    counter and steps the scheduler for every batch it runs; the two-stage
    epoch functions do so only for the batches the scaler did not skip.
    Called on the same inputs with a counter below the budget, the
    two-stage counter is never the larger one; when the two-stage pass ran
    a skipped batch and ended below the budget, the single-stage counter is
    strictly larger; when the two-stage pass ended at the budget, so did
    the single-stage pass. *)
Theorem counting_policies_compared `{LrSchedule} (s : scheduler)
    (loader : list batch) (count total : Z) :
  count < total ->
  let one := epoch_pass (LnOnly.train_epoch s loader count total) in
  let two := epoch_pass (TwoStage.train_epoch s loader count total) in
  (count_iters one = count + Z.of_nat (batches_run one) /\
   last_epoch (sched one) = last_epoch s + Z.of_nat (batches_run one)) /\
  (count_iters two = count + Z.of_nat (length (advancing (processed loader two))) /\
   last_epoch (sched two) =
     last_epoch s + Z.of_nat (length (advancing (processed loader two)))) /\
  TwoStage.train_epoch_second_stage s loader count total =
    TwoStage.train_epoch s loader count total /\
  count_iters two <= count_iters one /\
  ((exists b, b ∈ processed loader two /\ TwoStage.skip_lr_sched b = true) ->
   count_iters two < total -> count_iters two < count_iters one) /\
  (count_iters two = total -> count_iters one = total).
Proof.
  intros Hlt one two.
  destruct (ln_epoch_counts s loader count total) as (Hc1 & Hl1 & _).
  destruct (first_stage_counts s loader count total) as (Hc2 & Hl2 & _).
  fold one in Hc1, Hl1. fold two in Hc2, Hl2.
  assert (Hle1 : count_iters one <= total).
  { subst one. rewrite ln_epoch_pass.
    apply run_until_le; auto using ln_body_unit_step. }
  assert (Hle2 : count_iters two <= total).
  { subst two. rewrite first_stage_pass.
    apply run_until_le; auto using twostage_body_unit_step. }
  assert (Hfull1 : count_iters one < total -> batches_run one = length loader).
  { intros Hbelow. subst one. rewrite ln_epoch_pass in *.
    pose proof (run_until_runs _ ln_body_unit_step total loader (enter_pass s count)) as Hr.
    pose proof (run_until_early _ ln_body_unit_step total loader (enter_pass s count)) as He.
    simpl in Hr, He. lia. }
  assert (Hfull2 : count_iters two < total -> batches_run two = length loader).
  { intros Hbelow. subst two. rewrite first_stage_pass in *.
    pose proof (run_until_runs _ twostage_body_unit_step total loader (enter_pass s count)) as Hr.
    pose proof (run_until_early _ twostage_body_unit_step total loader (enter_pass s count)) as He.
    simpl in Hr, He. lia. }
  assert (Hseen : (length (advancing (processed loader two)) <= length loader)%nat).
  { pose proof (advancing_length (processed loader two)) as Ha.
    unfold processed in *. rewrite length_take in Ha. lia. }
  split; [auto|]. split; [auto|]. split; [apply second_stage_same|].
  split; [|split].
  - destruct (Z.eq_dec (count_iters one) total) as [->|Hne]; [exact Hle2|].
    rewrite Hfull1 in Hc1 by lia. lia.
  - intros (b & Hin & Hskip) Hbelow.
    pose proof (advancing_skipped _ _ Hin Hskip) as Hstrict.
    unfold processed in Hstrict at 2. rewrite length_take in Hstrict.
    destruct (Z.eq_dec (count_iters one) total) as [->|Hne]; [exact Hbelow|].
    rewrite Hfull1 in Hc1 by lia. lia.
  - intros Hat.
    destruct (Z.eq_dec (count_iters one) total) as [|Hne]; [assumption|].
    rewrite Hfull1 in Hc1 by lia. lia.
Qed.

Lemma counting_policies_compared_witness :
  0 < 5 /\
  let loader := [steady_batch; overflow_batch; steady_batch] in
  let one := epoch_pass (LnOnly.train_epoch (H := flat_lr) (CosineAnnealingLR 5) loader 0 5) in
  let two := epoch_pass (TwoStage.train_epoch (H := flat_lr) (CosineAnnealingLR 5) loader 0 5) in
  ((exists b, b ∈ processed loader two /\ TwoStage.skip_lr_sched b = true) ->
   count_iters two < 5 -> count_iters two < count_iters one).
Proof.
  split; [lia|].
  apply (counting_policies_compared (H := flat_lr) (CosineAnnealingLR 5)
           [steady_batch; overflow_batch; steady_batch] 0 5).
  lia.
Defined.

(** On that loader the single-stage pass returns 3 and the two-stage pass 2. *)
Example counters_differ_below_budget :
  let loader := [steady_batch; overflow_batch; steady_batch] in
  epoch_outcome (LnOnly.train_epoch (H := flat_lr) (CosineAnnealingLR 5) loader 0 5)
    = Returned 3 /\
  epoch_outcome (TwoStage.train_epoch (H := flat_lr) (CosineAnnealingLR 5) loader 0 5)
    = Returned 2.
Proof. vm_compute. auto. Qed.

(** C2 as stated fails: with a budget of one, a skipped first batch and a
    second batch that is not skipped, the two-stage pass runs a skipped
    step and yet both epoch functions return the counter 1. *)
Lemma skipped_step_made_up_before_budget :
  let loader := [overflow_batch; steady_batch] in
  let one := LnOnly.train_epoch (H := flat_lr) (CosineAnnealingLR 1) loader 0 1 in
  let two := TwoStage.train_epoch (H := flat_lr) (CosineAnnealingLR 1) loader 0 1 in
  let second := TwoStage.train_epoch_second_stage (H := flat_lr) (CosineAnnealingLR 1) loader 0 1 in
  (overflow_batch ∈ processed loader (epoch_pass two) /\
   TwoStage.skip_lr_sched overflow_batch = true) /\
  epoch_outcome one = Returned 1 /\
  epoch_outcome two = Returned 1 /\
  epoch_outcome second = Returned 1.
Proof.
  cbn zeta. split; [split|].
  - replace (processed _ _) with [overflow_batch; steady_batch] by (vm_compute; reflexivity).
    apply list_elem_of_here.
  - vm_compute. reflexivity.
  - vm_compute. auto.
Qed.

(** ** The scaler-skip test *)

(** C3, as amended.  In both two-stage epoch functions the step of a batch
    counts as skipped when the scale read before [scaler.update()] exceeds
    the scale read after it, that is when the scale went down.  A batch
    that is not skipped advances the scheduler by one step and the counter
    by one; a skipped batch leaves both as they were; over a pass both grow
    by the number of batches run and not skipped. *)
Theorem scaler_skip_gates_step `{LrSchedule} (s : scheduler) (b : batch)
    (loader : list batch) (count total : Z) :
  let went_down := PrimFloat.ltb (scale_after b) (scale_before b) in
  let single := epoch_pass (TwoStage.train_epoch s [b] count total) in
  let two := epoch_pass (TwoStage.train_epoch s loader count total) in
  TwoStage.skip_lr_sched b = went_down /\
  count_iters single = (if went_down then count else count + 1) /\
  sched single = (if went_down then s else scheduler_step s) /\
  count_iters two = count + Z.of_nat (length (advancing (processed loader two))) /\
  last_epoch (sched two) =
    last_epoch s + Z.of_nat (length (advancing (processed loader two))) /\
  TwoStage.train_epoch_second_stage s [b] count total =
    TwoStage.train_epoch s [b] count total /\
  TwoStage.train_epoch_second_stage s loader count total =
    TwoStage.train_epoch s loader count total.
Proof.
  cbn zeta.
  destruct (first_stage_counts s loader count total) as (Hc & Hl & _).
  split; [reflexivity|].
  rewrite first_stage_pass. cbn [run_until].
  assert (Hone : forall q : pass,
            (if count_iters q =? total then q else q) = q)
    by (intros q; destruct (count_iters q =? total); reflexivity).
  rewrite Hone. cbn [TwoStage.batch_body count_iters sched enter_pass].
  unfold TwoStage.skip_lr_sched, py_gt.
  split; [reflexivity|]. split; [reflexivity|].
  split; [exact Hc|]. split; [exact Hl|].
  split; apply second_stage_same.
Qed.

(** C3 as stated fails in both directions.  After a batch on which the
    scale went up (the scale after the update exceeds the one before) the
    counter and the scheduler advance; after a batch on which it went down
    they do not. *)
Lemma skip_is_a_scale_decrease :
  let up := epoch_pass (TwoStage.train_epoch (H := flat_lr) (CosineAnnealingLR 5)
                          [growth_batch] 0 5) in
  let down := epoch_pass (TwoStage.train_epoch_second_stage (H := flat_lr)
                            (CosineAnnealingLR 5) [overflow_batch] 0 5) in
  (py_gt (scale_after growth_batch) (scale_before growth_batch) = true /\
   count_iters up = 1 /\ last_epoch (sched up) = 1) /\
  (py_gt (scale_after overflow_batch) (scale_before overflow_batch) = false /\
   count_iters down = 0 /\ last_epoch (sched down) = 0).
Proof. vm_compute. auto 10. Qed.

(** ** The epoch log line *)

Lemma finish_epoch_printed `{LrSchedule} total p :
  epoch_printed (finish_epoch total p) <> [] ->
  count_iters p <= total /\ exists acc loss, averaged p acc loss.
Proof.
  unfold finish_epoch, averaged.
  destruct (Z.leb_spec (count_iters p) total) as [Hle|Hgt]; [|simpl; congruence].
  destruct (py_truediv (acc_train p) (tot_samples p)) as [acc|e]; simpl; [|congruence].
  destruct (py_truediv (loss_epoch p) (tot_samples p)) as [loss|e]; simpl; [|congruence].
  eauto.
Qed.

Lemma finish_epoch_line `{LrSchedule} total p acc loss :
  count_iters p <= total -> averaged p acc loss ->
  finish_epoch total p =
    {| epoch_outcome := Returned (count_iters p);
       epoch_printed := [epoch_line total p acc loss]; epoch_pass := p |}.
Proof.
  intros Hle [Hacc Hloss]. unfold finish_epoch.
  destruct (Z.leb_spec (count_iters p) total); [|lia].
  now rewrite Hacc, Hloss.
Qed.

Lemma prints_line_exactly_shape `{LrSchedule} body s epoch loader count total :
  unit_step body ->
  epoch loader count total =
    finish_epoch total (run_until body total loader (enter_pass s count)) ->
  prints_line_exactly epoch loader count total.
Proof.
  intros Hbody Hshape. unfold prints_line_exactly. rewrite Hshape, finish_epoch_pass.
  set (p := run_until body total loader (enter_pass s count)).
  assert (Hpos : 0 < tot_samples p < 2 ^ 63 -> exists acc loss, averaged p acc loss).
  { intros Htot. unfold averaged. rewrite !py_truediv_pos by assumption. eauto. }
  split; [split|].
  - apply finish_epoch_printed.
  - intros (Hle & acc & loss & Hav). now rewrite (finish_epoch_line total p acc loss).
  - split; [|split; [|split; [|split; [exact Hpos|]]]].
    + intros acc loss Hle Hav. now rewrite (finish_epoch_line total p acc loss).
    + intros Hover. now rewrite finish_epoch_over.
    + intros Hle Hzero. now rewrite finish_epoch_empty.
    + intros Hlt. now apply run_until_le.
Qed.

(** C6, as amended.  For each of the three epoch functions the line with
    the averaged accuracy, the averaged loss and the learning rate is
    printed exactly when the counter at the end of the pass is at most the
    budget and the averages can be computed, which they can for a sample
    count from one to below [2^63]; this includes the pass that stopped
    because the counter reached the budget.  No line is printed when the
    counter exceeds the budget, where the call returns the counter, and
    none when the counter is at most the budget and the sample count is
    zero, where the call raises [ZeroDivisionError]. *)
Theorem epoch_line_printed_up_to_budget `{LrSchedule} (s : scheduler)
    (loader : list batch) (count total : Z) :
  prints_line_exactly (LnOnly.train_epoch s) loader count total /\
  prints_line_exactly (TwoStage.train_epoch s) loader count total /\
  prints_line_exactly (TwoStage.train_epoch_second_stage s) loader count total.
Proof.
  split; [|split].
  - apply (prints_line_exactly_shape LnOnly.batch_body s); auto with loops. as_run_until.
  - apply (prints_line_exactly_shape TwoStage.batch_body s); auto with loops. as_run_until.
  - apply (prints_line_exactly_shape TwoStage.batch_body s); auto with loops. as_run_until.
Qed.

(** C6 as stated fails: a pass that stops at the budget after the first of
    its two batches prints its line, in each epoch function. *)
Lemma line_printed_at_budget :
  let loader := [steady_batch; steady_batch] in
  let one := LnOnly.train_epoch (H := flat_lr) (CosineAnnealingLR 1) loader 0 1 in
  let two := TwoStage.train_epoch (H := flat_lr) (CosineAnnealingLR 1) loader 0 1 in
  let second := TwoStage.train_epoch_second_stage (H := flat_lr) (CosineAnnealingLR 1) loader 0 1 in
  let line := {| log_count := 1; log_total := 1; log_lr := 0.5;
                 log_acc := 75; log_loss := 0.5 |} in
  (batches_run (epoch_pass one) = 1%nat /\ count_iters (epoch_pass one) = 1 /\
   epoch_printed one = [line]) /\
  (batches_run (epoch_pass two) = 1%nat /\ count_iters (epoch_pass two) = 1 /\
   epoch_printed two = [line]) /\
  (batches_run (epoch_pass second) = 1%nat /\ count_iters (epoch_pass second) = 1 /\
   epoch_printed second = [line]).
Proof. vm_compute. auto 10. Qed.

(** ** Averaging over no sample *)

Lemma finish_epoch_nothing `{LrSchedule} s count total :
  finish_epoch total (enter_pass s count) = on_empty_loader s count total.
Proof.
  unfold on_empty_loader.
  destruct (Z.leb_spec count total).
  - now apply finish_epoch_empty.
  - now apply finish_epoch_over.
Qed.

(** C8, as amended.  No averaging site guards the division.  On a loader
    that yields no batch the evaluator divides the accumulated accuracy by
    a sample count of zero and raises [ZeroDivisionError]; so does each
    epoch function when its counter is at most the budget, and when the
    counter exceeds the budget the averaging is not reached and the
    counter is returned. *)
Theorem empty_loader_division `{LrSchedule} `{Backend} (s : scheduler)
    (count total : Z) (model : SingleStreamClassifier.t)
    (template : string) (classnames : list string) :
  LnOnly.train_epoch s [] count total = on_empty_loader s count total /\
  TwoStage.train_epoch s [] count total = on_empty_loader s count total /\
  TwoStage.train_epoch_second_stage s [] count total = on_empty_loader s count total /\
  SingleStreamClassifier.evaluate_selective_inference model [] template classnames =
    (Raised ZeroDivisionError, SingleStreamClassifier.drop_cache model).
Proof.
  split; [|split; [|split]]; try apply finish_epoch_nothing.
  reflexivity.
Qed.

(** C8 as stated fails: on an empty loader the division by the sample
    count is carried out, and the call ends in [ZeroDivisionError]. *)
Lemma empty_loader_not_guarded :
  py_truediv 0 0 = Raised ZeroDivisionError /\
  epoch_outcome (LnOnly.train_epoch (H := flat_lr) (CosineAnnealingLR 4) [] 0 4)
    = Raised ZeroDivisionError /\
  epoch_outcome (TwoStage.train_epoch (H := flat_lr) (CosineAnnealingLR 4) [] 0 4)
    = Raised ZeroDivisionError /\
  epoch_outcome (TwoStage.train_epoch_second_stage (H := flat_lr) (CosineAnnealingLR 4) [] 0 4)
    = Raised ZeroDivisionError /\
  (SingleStreamClassifier.evaluate_selective_inference (H := symbolic)
     pets [] "a photo of a {}." ["dog"; "cat"]).1 = Raised ZeroDivisionError.
Proof. vm_compute. auto 10. Qed.

(** ** Python dicts *)

Section Dict.
Context {V : Type}.
Implicit Types (d : gmap string V) (pairs : list (string * V)).

Lemma dict_fill_absent pairs d k :
  k ∉ pairs.*1 ->
  foldl (fun d kv => <[kv.1 := kv.2]> d) d pairs !! k = d !! k.
Proof.
  revert d; induction pairs as [|[k' v'] pairs IH]; intros d Hk; simpl; [reflexivity|].
  simpl in Hk. apply not_elem_of_cons in Hk as [Hne Hk].
  rewrite IH by assumption. simpl. now rewrite lookup_insert_ne.
Qed.

Lemma dict_fill_present pairs d k :
  k ∈ pairs.*1 ->
  is_Some (foldl (fun d kv => <[kv.1 := kv.2]> d) d pairs !! k).
Proof.
  revert d; induction pairs as [|[k' v'] pairs IH]; intros d Hk; simpl in *.
  - inversion Hk.
  - destruct (decide (k ∈ pairs.*1)) as [Hin|Hout]; [now apply IH|].
    apply elem_of_cons in Hk as [->|Hin]; [|contradiction].
    rewrite dict_fill_absent by assumption. simpl.
    rewrite lookup_insert_eq. eauto.
Qed.

Lemma dict_fill_nodup pairs d j k v :
  NoDup pairs.*1 -> pairs !! j = Some (k, v) ->
  foldl (fun d kv => <[kv.1 := kv.2]> d) d pairs !! k = Some v.
Proof.
  revert d j; induction pairs as [|[k' v'] pairs IH]; intros d j Hnd Hj; simpl in *.
  - discriminate.
  - apply NoDup_cons in Hnd as [Hfresh Hnd].
    destruct j as [|j]; simpl in Hj.
    + injection Hj as -> ->. rewrite dict_fill_absent by assumption.
      simpl. apply lookup_insert_eq.
    + eapply IH; eassumption.
Qed.

Lemma dict_fill_member pairs d k v :
  foldl (fun d kv => <[kv.1 := kv.2]> d) d pairs !! k = Some v ->
  (k, v) ∈ pairs \/ d !! k = Some v.
Proof.
  revert d; induction pairs as [|[k' v'] pairs IH]; intros d Hk; simpl in *; [now right|].
  apply IH in Hk as [Hin|Hd]; [left; now right|]. simpl in Hd.
  destruct (decide (k' = k)) as [->|Hne].
  - rewrite lookup_insert_eq in Hd. injection Hd as ->. left. apply list_elem_of_here.
  - rewrite lookup_insert_ne in Hd by assumption. now right.
Qed.

Lemma dict_of_member pairs k v : dict_of pairs !! k = Some v -> (k, v) ∈ pairs.
Proof.
  intros Hk. apply dict_fill_member in Hk as [Hin|Hempty]; [exact Hin|].
  rewrite lookup_empty in Hempty. discriminate.
Qed.

Lemma dict_of_absent pairs k : k ∉ pairs.*1 -> dict_of pairs !! k = None.
Proof. intros Hk. unfold dict_of. now rewrite dict_fill_absent. Qed.

Lemma dict_of_present pairs k : k ∈ pairs.*1 -> is_Some (dict_of pairs !! k).
Proof. apply dict_fill_present. Qed.

Lemma dict_of_nodup pairs j k v :
  NoDup pairs.*1 -> pairs !! j = Some (k, v) -> dict_of pairs !! k = Some v.
Proof. apply dict_fill_nodup. Qed.

End Dict.

(** ** Assembling the inference classifier *)

Section Classifier.
Context `{Backend}.
Implicit Types (self : SSC.t) (cats : list string).

Lemma missing_classnames_spec self cats cat :
  cat ∈ SSC.missing_classnames self cats <-> cat ∈ cats /\ SSC.cat2id self !! cat = None.
Proof. unfold SSC.missing_classnames. rewrite list_elem_of_filter. tauto. Qed.

Lemma rows_in_range_cons self cat cats :
  rows_in_range self (cat :: cats) = true ->
  (forall i, SSC.cat2id self !! cat = Some i -> is_Some (SSC.classifier self !! i)) /\
  rows_in_range self cats = true.
Proof.
  unfold rows_in_range. simpl. intros [Hhead Htail]%andb_prop. split; [|exact Htail].
  intros i Hi. rewrite Hi in Hhead. apply bool_decide_eq_true in Hhead.
  now apply lookup_lt_is_Some.
Qed.

Lemma cat2known_rows self cats d :
  rows_in_range self cats = true ->
  exists known,
    SSC.cat2known self cats d = Returned known /\
    forall cat i, SSC.cat2id self !! cat = Some i ->
      cat ∈ cats \/ d !! cat = SSC.classifier self !! i ->
      known !! cat = SSC.classifier self !! i.
Proof.
  revert d; induction cats as [|a cats IH]; intros d Hrange; simpl.
  - exists d. split; [reflexivity|]. intros cat i _ [Hin|Hd]; [inversion Hin|exact Hd].
  - apply rows_in_range_cons in Hrange as [Hhead Hrange].
    destruct (SSC.cat2id self !! a) as [j|] eqn:Ha.
    + destruct (Hhead j eq_refl) as [row Hrow]. rewrite Hrow.
      destruct (IH (<[a := row]> d) Hrange) as (known & -> & Hknown).
      exists known. split; [reflexivity|]. intros cat i Hi Hor.
      apply Hknown; [exact Hi|].
      destruct (decide (cat = a)) as [->|Hne].
      * right. rewrite lookup_insert_eq. congruence.
      * rewrite lookup_insert_ne by congruence.
        destruct Hor as [Hin|Hd]; [|now right].
        apply elem_of_cons in Hin as [?|Hin]; [contradiction|now left].
    + destruct (IH d Hrange) as (known & -> & Hknown).
      exists known. split; [reflexivity|]. intros cat i Hi Hor.
      apply Hknown; [exact Hi|].
      destruct Hor as [Hin|Hd]; [|now right].
      apply elem_of_cons in Hin as [->|Hin]; [congruence|now left].
Qed.

Lemma pick_rows_spec (cat2new known : gmap string tensor) cats :
  (forall cat, cat ∈ cats ->
     is_Some (match cat2new !! cat with Some r => Some r | None => known !! cat end)) ->
  exists rows,
    SSC.pick_rows cat2new known cats = Returned rows /\
    length rows = length cats /\
    forall k cat, cats !! k = Some cat ->
      rows !! k = match cat2new !! cat with Some r => Some r | None => known !! cat end.
Proof.
  induction cats as [|a cats IH]; intros Hall; simpl.
  - exists []. split; [reflexivity|]. split; [reflexivity|]. intros k cat Hk. discriminate.
  - destruct IH as (rows & -> & Hlen & Hrows).
    { intros cat Hin. apply Hall. now right. }
    destruct (Hall a (list_elem_of_here _ _)) as [r Hr].
    exists (r :: rows). split; [|split].
    + destruct (cat2new !! a); [injection Hr as ->; reflexivity|].
      rewrite Hr. reflexivity.
    + simpl. now rewrite Hlen.
    + intros [|k] cat Hk; simpl in *.
      * injection Hk as <-. now rewrite Hr.
      * now apply Hrows.
Qed.

(** The matrix that [infer] assembles: one row per category, in the order
    of [categories], the known ones from the classifier matrix and the
    others from the text encoder, then cast and normalised. *)
Lemma build_classifier_spec self x cats template :
  can_assemble self template cats ->
  let missing := SSC.missing_classnames self cats in
  let cat2new := dict_of (zip missing (encode_text template missing)) in
  exists rows,
    SSC.build_classifier self x cats template
      = Returned (normalize <$> (to_like x <$> rows)) /\
    length rows = length cats /\
    forall k cat, cats !! k = Some cat ->
      rows !! k = match SSC.cat2id self !! cat with
                  | Some i => SSC.classifier self !! i
                  | None => cat2new !! cat
                  end.
Proof.
  intros (Hne & Hrange & Hlen) missing cat2new.
  assert (Hkeys : (zip missing (encode_text template missing)).*1 = missing)
    by (apply fst_zip; fold missing in Hlen; lia).
  destruct (cat2known_rows self cats ∅ Hrange) as (known & Hknown & Hrows).
  assert (Hpick : forall cat, cat ∈ cats ->
            match cat2new !! cat with Some r => Some r | None => known !! cat end
            = match SSC.cat2id self !! cat with
              | Some i => SSC.classifier self !! i
              | None => cat2new !! cat
              end /\
            is_Some (match cat2new !! cat with Some r => Some r | None => known !! cat end)).
  { intros cat Hin. destruct (SSC.cat2id self !! cat) as [i|] eqn:Hi.
    - assert (Hnew : cat2new !! cat = None).
      { apply dict_of_absent. rewrite Hkeys.
        intros [_ Hnone]%missing_classnames_spec. congruence. }
      rewrite Hnew, (Hrows cat i Hi (or_introl Hin)).
      split; [reflexivity|].
      clear -Hrange Hin Hi. induction cats as [|a cats IH]; [inversion Hin|].
      apply rows_in_range_cons in Hrange as [Hhead Hrange].
      apply elem_of_cons in Hin as [->|Hin]; auto.
    - destruct (dict_of_present (zip missing (encode_text template missing)) cat) as [r Hr].
      { rewrite Hkeys. now apply missing_classnames_spec. }
      fold cat2new in Hr. rewrite Hr. eauto. }
  destruct (pick_rows_spec cat2new known cats) as (rows & Hrowsq & Hlenr & Hat).
  { intros cat Hin. now apply Hpick. }
  exists rows. split; [|split; [exact Hlenr|]].
  - unfold SSC.build_classifier. fold missing. fold cat2new.
    rewrite Hknown. simpl. rewrite Hrowsq. simpl.
    destruct rows as [|r rows]; [|reflexivity].
    destruct cats; [contradiction|discriminate].
  - intros k cat Hk. rewrite (Hat k cat Hk).
    apply Hpick. eapply list_elem_of_lookup_2. eassumption.
Qed.

(** An instance as [__init__] makes it indexes rows that exist, whatever
    the categories asked for. *)
Lemma init_rows_in_range classnames template cats :
  length (encode_text template classnames) = length classnames ->
  rows_in_range (SSC.init classnames template) cats = true.
Proof.
  intros Hlen. unfold rows_in_range. apply forallb_forall. intros cat _.
  cbn [SSC.init SSC.cat2id SSC.classifier].
  destruct (enumerate_dict classnames !! cat) as [i|] eqn:Hi; [|reflexivity].
  apply bool_decide_eq_true. rewrite !length_fmap, Hlen.
  apply dict_of_member, elem_of_zip_r, elem_of_seq in Hi. lia.
Qed.

End Classifier.

Lemma fresh_embeddings_by_position `{Backend} (self : SSC.t) (template : string)
    (categories : list string) :
  let missing := SSC.missing_classnames self categories in
  length (encode_text template missing) = length missing ->
  NoDup categories ->
  forall j cat, missing !! j = Some cat ->
    dict_of (zip missing (encode_text template missing)) !! cat
      = encode_text template missing !! j.
Proof.
  intros missing Hlen Hnd j cat Hj.
  destruct (lookup_lt_is_Some_2 (encode_text template missing) j) as [v Hv].
  { rewrite Hlen. eapply lookup_lt_Some. eassumption. }
  rewrite Hv. apply dict_of_nodup with (j := j).
  - rewrite fst_zip by lia. now apply NoDup_filter.
  - apply lookup_zip_Some. auto.
Qed.

(** C4.  A call of [infer] with the reuse flag set on an instance that
    holds a cached inference classifier scores the batch against that
    matrix and changes nothing: the text encoder is not called and no
    matrix is assembled.  Any other call sends to the text encoder exactly
    the categories that [cat2id] does not know, assembles one row per
    category in the order of [categories] (the known ones taken from the
    classifier matrix, the others from the encoder's answer), casts and
    normalises the rows, stores the result as the cache and scores the
    batch against it. *)
Theorem infer_reuses_or_assembles `{Backend} (self : SSC.t) (x : images)
    (categories : list string) (template : string) (compute_classifier_once : bool) :
  let missing := SSC.missing_classnames self categories in
  let cat2new := dict_of (zip missing (encode_text template missing)) in
  let features := normalize <$> backbone x in
  (forall cached,
     compute_classifier_once = true -> SSC.inference_classifier self = Some cached ->
     SSC.infer self x categories template compute_classifier_once
       = (Returned (similarity features cached), self)) /\
  (compute_classifier_once = false \/ SSC.inference_classifier self = None ->
   can_assemble self template categories ->
   exists rows,
     length rows = length categories /\
     (forall k cat, categories !! k = Some cat ->
        rows !! k = match SSC.cat2id self !! cat with
                    | Some i => SSC.classifier self !! i
                    | None => cat2new !! cat
                    end) /\
     (forall cat, cat ∈ missing <-> cat ∈ categories /\ SSC.cat2id self !! cat = None) /\
     (NoDup categories -> forall j cat, missing !! j = Some cat ->
        cat2new !! cat = encode_text template missing !! j) /\
     SSC.infer self x categories template compute_classifier_once
       = (Returned (similarity features (normalize <$> (to_like x <$> rows))),
          with_cache self (normalize <$> (to_like x <$> rows)) missing)).
Proof.
  cbn zeta. split.
  - intros cached -> Hcached. unfold SSC.infer. now rewrite Hcached.
  - intros Hbuild Hcan.
    destruct (build_classifier_spec self x categories template Hcan)
      as (rows & Hbuilt & Hlen & Hrows).
    exists rows. split; [exact Hlen|]. split; [exact Hrows|].
    split; [apply missing_classnames_spec|].
    split; [apply fresh_embeddings_by_position; apply Hcan|].
    unfold SSC.infer.
    replace (if compute_classifier_once then SSC.inference_classifier self else None)
      with (@None (list tensor))
      by (destruct Hbuild as [->| ->]; [|destruct compute_classifier_once]; reflexivity).
    rewrite Hbuilt. reflexivity.
Qed.

Lemma infer_reuses_or_assembles_witness :
  can_assemble (H := symbolic) pets "a photo of {}." ["cat"; "owl"; "dog"] /\
  exists rows : list string,
    length rows = 3%nat /\
    SSC.infer (H := symbolic) pets "image" ["cat"; "owl"; "dog"] "a photo of {}." true
      = (Returned (["unit image"], String.append "unit " <$> rows),
         with_cache (H := symbolic) pets (String.append "unit " <$> rows) ["owl"]).
Proof.
  assert (Hcan : can_assemble (H := symbolic) pets "a photo of {}." ["cat"; "owl"; "dog"]).
  { split; [discriminate|]. split; reflexivity. }
  split; [exact Hcan|].
  destruct (proj2 (infer_reuses_or_assembles (H := symbolic) pets "image"
                     ["cat"; "owl"; "dog"] "a photo of {}." true)
              (or_intror eq_refl) Hcan)
    as (rows & Hlen & _ & _ & _ & Hinfer).
  exists rows. split; [exact Hlen|]. rewrite Hinfer.
  rewrite list_fmap_id. reflexivity.
Defined.

(** On these categories the encoder is asked for owl alone, and the rows
    come out in the order cat, owl, dog. *)
Example infer_on_pets :
  SSC.infer (H := symbolic) pets "image" ["cat"; "owl"; "dog"] "a photo of {}." true
  = (Returned (["unit image"],
               ["unit unit a photo of a {}.:cat"; "unit a photo of {}.:owl";
                "unit unit a photo of a {}.:dog"]),
     with_cache (H := symbolic) pets
       ["unit unit a photo of a {}.:cat"; "unit a photo of {}.:owl";
        "unit unit a photo of a {}.:dog"] ["owl"]).
Proof. vm_compute. reflexivity. Qed.

(** ** The evaluator *)

Section Evaluator.
Context `{Backend}.

Lemma eval_loop_cached loader template classnames acc tot (model : SSC.t) built :
  SSC.inference_classifier model = Some built ->
  SSC.eval_loop loader template classnames acc tot model
    = (Returned (tally built loader acc tot), model).
Proof.
  intros Hcached. revert acc tot.
  induction loader as [|[x tgt] rest IH]; intros acc tot; simpl; [reflexivity|].
  unfold SSC.infer. rewrite Hcached. apply IH.
Qed.

Lemma cat2known_drop_cache (model : SSC.t) classnames d :
  SSC.cat2known (SSC.drop_cache model) classnames d = SSC.cat2known model classnames d.
Proof.
  revert d; induction classnames as [|cat classnames IH]; intros d; simpl; [reflexivity|].
  destruct (SSC.cat2id model !! cat) as [i|]; [|apply IH].
  destruct (SSC.classifier model !! i); [apply IH|reflexivity].
Qed.

Lemma build_classifier_drop_cache (model : SSC.t) x classnames template :
  SSC.build_classifier (SSC.drop_cache model) x classnames template
    = SSC.build_classifier model x classnames template.
Proof. unfold SSC.build_classifier. now rewrite cat2known_drop_cache. Qed.

Lemma infer_assembles (model : SSC.t) x classnames template built :
  SSC.inference_classifier model = None ->
  SSC.build_classifier model x classnames template = Returned built ->
  SSC.infer model x classnames template true
    = (Returned (similarity (normalize <$> backbone x) built),
       with_cache model built (SSC.missing_classnames model classnames)).
Proof. intros Hnone Hbuilt. unfold SSC.infer. now rewrite Hnone, Hbuilt. Qed.

End Evaluator.

(** C5.  A call of the evaluator starts by removing the cached inference
    classifier.  On a loader with at least one batch it then assembles one
    matrix, in the first batch: the text encoder is called once, the matrix
    stays cached on the model, and every batch of the call is scored
    against it.  Whatever matrix an earlier call had left on the model
    takes no part in the result. *)
Theorem evaluation_assembles_once `{Backend} (model : SSC.t) (x : images) (tgt : target)
    (rest : list (images * target)) (template : string) (classnames : list string) :
  can_assemble model template classnames ->
  let loader := (x, tgt) :: rest in
  let missing := SSC.missing_classnames model classnames in
  exists built,
    SSC.build_classifier model x classnames template = Returned built /\
    (SSC.evaluate_selective_inference model loader template classnames).2
      = with_cache model built missing /\
    (SSC.evaluate_selective_inference model loader template classnames).1
      = py_truediv (tally built loader 0 0).1 (tally built loader 0 0).2 /\
    forall stale,
      SSC.evaluate_selective_inference
        {| SSC.classifier := SSC.classifier model; SSC.cat2id := SSC.cat2id model;
           SSC.inference_classifier := stale;
           SSC.text_encodings := SSC.text_encodings model |} loader template classnames
      = SSC.evaluate_selective_inference model loader template classnames.
Proof.
  intros Hcan loader missing.
  destruct (build_classifier_spec model x classnames template Hcan)
    as (rows & Hbuilt & _ & _).
  exists (normalize <$> (to_like x <$> rows)). split; [exact Hbuilt|].
  assert (Heval : SSC.evaluate_selective_inference model loader template classnames
            = (py_truediv (tally (normalize <$> (to_like x <$> rows)) loader 0 0).1
                          (tally (normalize <$> (to_like x <$> rows)) loader 0 0).2,
               with_cache model (normalize <$> (to_like x <$> rows)) missing)).
  { unfold SSC.evaluate_selective_inference, loader. cbn [SSC.eval_loop].
    rewrite (infer_assembles (SSC.drop_cache model) x classnames template
               (normalize <$> (to_like x <$> rows)))
      by (try reflexivity; now rewrite build_classifier_drop_cache).
    rewrite (eval_loop_cached rest template classnames _ _ _
               (normalize <$> (to_like x <$> rows))) by reflexivity.
    cbn [tally].
    destruct (tally (normalize <$> (to_like x <$> rows)) rest _ _) as [acc tot].
    reflexivity. }
  split; [now rewrite Heval|]. split; [now rewrite Heval|].
  intros stale. unfold SSC.evaluate_selective_inference. reflexivity.
Qed.

Lemma evaluation_assembles_once_witness :
  can_assemble (H := symbolic) pets_after_evaluation "a photo of {}." ["owl"; "dog"] /\
  exists built : list string,
    (SSC.evaluate_selective_inference (H := symbolic) pets_after_evaluation
       [("first", tt); ("second", tt)] "a photo of {}." ["owl"; "dog"]).2
    = with_cache (H := symbolic) pets_after_evaluation built ["owl"].
Proof.
  assert (Hcan : can_assemble (H := symbolic) pets_after_evaluation
                   "a photo of {}." ["owl"; "dog"]).
  { split; [discriminate|]. split; reflexivity. }
  split; [exact Hcan|].
  destruct (evaluation_assembles_once (H := symbolic) pets_after_evaluation
              "first" tt [("second", tt)] "a photo of {}." ["owl"; "dog"] Hcan)
    as (built & _ & Hmodel & _).
  exists built. exact Hmodel.
Defined.

(** An evaluation on novel categories after an earlier evaluation: the
    stale row is dropped, the encoder is asked for owl once, and the two
    batches of two samples average to the accuracy of each. *)
Example evaluation_after_evaluation :
  SSC.evaluate_selective_inference (H := symbolic) pets_after_evaluation
    [("first", tt); ("second", tt)] "a photo of {}." ["owl"; "dog"]
  = (Returned 50%float,
     {| SSC.classifier := SSC.classifier pets; SSC.cat2id := SSC.cat2id pets;
        SSC.inference_classifier :=
          Some ["unit a photo of {}.:owl"; "unit unit a photo of a {}.:dog"];
        SSC.text_encodings := [["owl"]; ["owl"]] |}).
Proof. vm_compute. reflexivity. Qed.

(** ** Passes that make progress *)

Lemma samples_nonneg bs : 0 <= samples bs.
Proof.
  induction bs as [|b bs IH]; simpl; [lia|].
  pose proof (Uint63.to_Z_bounded (batch_size b)). lia.
Qed.

Lemma samples_take k bs : samples (take k bs) <= samples bs.
Proof.
  revert k; induction bs as [|b bs IH]; intros [|k]; simpl; try lia.
  - pose proof (samples_nonneg bs). pose proof (Uint63.to_Z_bounded (batch_size b)). lia.
  - specialize (IH k). lia.
Qed.

Lemma samples_take_pos k b bs :
  forallb (fun b => 0 <? Uint63.to_Z (batch_size b)) (b :: bs) = true ->
  0 < samples (take (S k) (b :: bs)).
Proof.
  simpl. intros [Hb _]%andb_prop. apply Z.ltb_lt in Hb.
  pose proof (samples_nonneg (take k bs)). lia.
Qed.

Lemma run_until_samples body total loader p :
  unit_step body ->
  let q := run_until body total loader p in
  tot_samples q = tot_samples p + samples (take (batches_run q - batches_run p) loader).
Proof.
  intros Hbody. revert p; induction loader as [|b rest IH]; intros p; cbn [run_until].
  - cbn zeta. rewrite take_nil. simpl. lia.
  - destruct (Hbody b p) as (Hrun & Htot & _).
    destruct (count_iters (body b p) =? total).
    + cbn zeta. rewrite Hrun.
      replace (S (batches_run p) - batches_run p)%nat with 1%nat by lia.
      cbn [take]. rewrite take_0. simpl. lia.
    + specialize (IH (body b p)).
      pose proof (run_until_runs body Hbody total rest (body b p)) as Hr.
      cbn zeta in *. rewrite Hrun in IH, Hr.
      replace (batches_run (run_until body total rest (body b p)) - batches_run p)%nat
        with (S (batches_run (run_until body total rest (body b p)) - S (batches_run p)))
        by lia.
      cbn [take]. simpl. lia.
Qed.

Lemma run_until_first body total b rest p :
  unit_step body ->
  (batches_run p < batches_run (run_until body total (b :: rest) p))%nat.
Proof.
  intros Hbody. cbn [run_until]. destruct (Hbody b p) as (Hrun & _).
  destruct (count_iters (body b p) =? total); [lia|].
  pose proof (run_until_runs body Hbody total rest (body b p)). lia.
Qed.

Lemma advancing_exists bs :
  existsb (fun b => negb (TwoStage.skip_lr_sched b)) bs = true ->
  (0 < length (advancing bs))%nat.
Proof.
  induction bs as [|b bs IH]; simpl; [discriminate|].
  rewrite advancing_cons. destruct (TwoStage.skip_lr_sched b); simpl; [auto|lia].
Qed.

Lemma first_stage_budgeted `{LrSchedule} : budgeted TwoStage.train_epoch.
Proof.
  intros s e count budget Hlt.
  pose proof twostage_body_unit_step as Hbody.
  set (q := run_until TwoStage.batch_body budget e (enter_pass s count)).
  assert (Hq : epoch_pass (TwoStage.train_epoch s e count budget) = q)
    by apply first_stage_pass.
  assert (Hle : count_iters q <= budget) by (now apply run_until_le).
  assert (Hge : count <= count_iters q)
    by (apply (run_until_ge _ Hbody budget e (enter_pass s count))).
  split; [|split; [|apply first_stage_counts]].
  - intros c Hc. unfold TwoStage.train_epoch in Hc, Hq.
    apply finish_epoch_returned in Hc. rewrite finish_epoch_pass in Hq.
    rewrite Hq in Hc. lia.
  - intros Hprod. unfold productive in Hprod.
    apply andb_prop in Hprod as [[Hsome Hsizes]%andb_prop Hbound].
    apply Z.ltb_lt in Hbound.
    destruct e as [|b rest]; [discriminate|].
    pose proof (run_until_first _ budget b rest (enter_pass s count) Hbody) as Hfirst.
    pose proof (run_until_samples _ budget (b :: rest) (enter_pass s count) Hbody) as Htot.
    pose proof (run_until_runs _ Hbody budget (b :: rest) (enter_pass s count)) as Hruns.
    pose proof (run_until_early _ Hbody budget (b :: rest) (enter_pass s count)) as Hearly.
    destruct (twostage_pass_counts budget (b :: rest) (enter_pass s count)) as (Hcount & _).
    fold q in Hfirst, Htot, Hruns, Hearly, Hcount.
    cbn [enter_pass batches_run tot_samples count_iters] in Hfirst, Htot, Hruns, Hearly, Hcount.
    cbn zeta in Htot. rewrite Nat.sub_0_r in Htot, Hcount.
    assert (Hpos : 0 < tot_samples q < 2 ^ 63).
    { rewrite Htot. destruct (batches_run q) as [|k]; [lia|].
      pose proof (samples_take_pos k b rest Hsizes).
      pose proof (samples_take (S k) (b :: rest)). lia. }
    exists (count_iters q). split.
    + unfold TwoStage.train_epoch in *. rewrite finish_epoch_pass in Hq. rewrite Hq.
      now apply finish_epoch_averaged.
    + split; [|exact Hle].
      destruct (Z.eq_dec (count_iters q) budget) as [->|Hne]; [exact Hlt|].
      assert (Hall : batches_run q = length (b :: rest)) by lia.
      rewrite Hall, firstn_all in Hcount.
      pose proof (advancing_exists _ Hsome). lia.
Qed.

Lemma second_stage_budgeted `{LrSchedule} : budgeted TwoStage.train_epoch_second_stage.
Proof.
  intros s e count budget Hlt. rewrite second_stage_same.
  now apply first_stage_budgeted.
Qed.

(** ** The [while] loops of the orchestrator *)

Lemma while_below_reaches epoch budget epochs s count out st :
  budgeted epoch -> count <= budget ->
  while_below epoch false budget epochs s count out = Some (Returned st) ->
  stage_count st = budget /\ T_max (stage_sched st) = T_max s.
Proof.
  intros Hepoch. revert s count out.
  induction epochs as [|e rest IH]; intros s count out Hle; cbn [while_below].
  - destruct (Z.ltb_spec count budget); [discriminate|].
    intros [= <-]. simpl. split; [lia|reflexivity].
  - destruct (Z.ltb_spec count budget) as [Hlt|Hge].
    + destruct (Hepoch s e count budget Hlt) as (Hret & _ & Hmax).
      destruct (epoch_outcome (epoch s e count budget)) as [c|ex]; [|discriminate].
      intros Hrun. apply IH in Hrun; [|apply (Hret c eq_refl)].
      rewrite Hmax in Hrun. exact Hrun.
    + intros [= <-]. simpl. split; [lia|reflexivity].
Qed.

Lemma while_below_returns epoch budget epochs s count out :
  budgeted epoch -> count <= budget ->
  Forall (fun e => productive e = true) epochs ->
  budget - count <= Z.of_nat (length epochs) ->
  exists st,
    while_below epoch false budget epochs s count out = Some (Returned st) /\
    Forall (fun e => productive e = true) (stage_rest st) /\
    Z.of_nat (length epochs) - (budget - count) <= Z.of_nat (length (stage_rest st)).
Proof.
  intros Hepoch. revert s count out.
  induction epochs as [|e rest IH]; intros s count out Hle Hprod Hlen; cbn [while_below].
  - simpl in Hlen. destruct (Z.ltb_spec count budget); [lia|].
    eexists. split; [reflexivity|]. simpl. split; [constructor|lia].
  - destruct (Z.ltb_spec count budget) as [Hlt|Hge].
    + apply Forall_cons in Hprod as [He Hrest].
      destruct (Hepoch s e count budget Hlt) as (_ & Hstep & _).
      destruct (Hstep He) as (c & -> & Hc).
      destruct (IH (sched (epoch_pass (epoch s e count budget))) c
                  (out ++ epoch_printed (epoch s e count budget)))
        as (st & -> & Hst & Hleft); [lia|assumption|simpl in Hlen; lia|].
      exists st. split; [reflexivity|]. split; [assumption|].
      simpl length. lia.
    + eexists. split; [reflexivity|]. simpl stage_rest. split; [assumption|lia].
Qed.

(** ** Rounding the stage-1 sub-budget *)

Lemma trunc_is_floor sf k :
  not_negative sf -> trunc_spec_float sf = Returned k -> floor_spec_float sf = Some k.
Proof.
  destruct sf as [s|s| |s m e]; simpl; try discriminate.
  - intros _ [= <-]. reflexivity.
  - intros -> [= <-]. simpl. f_equal.
    destruct (0 <=? e) eqn:He; [reflexivity|].
    apply Z.leb_gt in He. symmetry. apply Z.quot_div_nonneg; [lia|].
    apply Z.pow_pos_nonneg; lia.
Qed.

Lemma binary_round_aux_sign sx mx ex lx :
  sx = false -> not_negative (binary_round_aux prec emax sx mx ex lx).
Proof.
  intros ->. unfold binary_round_aux.
  destruct (shr_fexp prec emax mx ex lx) as [mrs e'].
  destruct (shr_fexp prec emax _ e' loc_Exact) as [mrs' e''].
  destruct (shr_m mrs'); simpl; [exact I| |exact I].
  destruct (e'' <=? emax - prec); reflexivity.
Qed.

Lemma SFmul_not_negative x y :
  not_negative x -> not_negative y -> not_negative (SFmul prec emax x y).
Proof.
  destruct x as [sx|sx| |sx mx ex], y as [sy|sy| |sy my ey]; simpl;
    intros Hx Hy; subst; try exact I; try reflexivity.
  now apply binary_round_aux_sign.
Qed.

Lemma of_uint63_not_negative n : not_negative (Prim2SF (PrimFloat.of_uint63 n)).
Proof.
  rewrite of_uint63_spec. pose proof (Uint63.to_Z_bounded n) as Hn.
  unfold binary_normalize. destruct (Uint63.to_Z n) as [|m|m]; [exact I| |lia].
  unfold binary_round. destruct (shl_align _ _ _) as [mz ez].
  now apply binary_round_aux_sign.
Qed.

Lemma leb_zero_not_negative x : PrimFloat.leb 0 x = true -> not_negative (Prim2SF x).
Proof.
  rewrite leb_spec. change (Prim2SF 0) with (S754_zero false).
  destruct (Prim2SF x) as [s|s| |s m e]; simpl; try (intros; exact I);
    destruct s; cbv [SFleb SFcompare]; congruence.
Qed.

(** [int(total * frac)] rounds the double product down when neither factor
    is negative. *)
Lemma cosine_iters_rounds_down total frac x k :
  0 <= total < 2 ^ 63 -> PrimFloat.leb 0 frac = true ->
  py_mul_int_float total frac = Returned x -> py_int x = Returned k ->
  float_floor x = Some k.
Proof.
  intros Htotal Hfrac Hx Hk. unfold py_mul_int_float, py_float_of_int in Hx.
  destruct (Z.ltb_spec (Z.abs total) (2 ^ 63)); [|lia].
  destruct (Z.ltb_spec total 0); [lia|]. simpl in Hx. injection Hx as <-.
  apply trunc_is_floor; [|exact Hk].
  rewrite mul_spec. apply SFmul_not_negative.
  - apply of_uint63_not_negative.
  - now apply leb_zero_not_negative.
Qed.

Lemma trunc_not_negative sf k :
  not_negative sf -> trunc_spec_float sf = Returned k -> 0 <= k.
Proof.
  destruct sf as [s|s| |s m e]; simpl; try discriminate.
  - intros _ [= <-]. lia.
  - intros -> [= <-]. simpl.
    destruct (0 <=? e) eqn:He.
    + apply Z.leb_le in He. pose proof (Z.pow_nonneg 2 e). lia.
    + apply Z.leb_gt in He. apply Z.quot_pos; [lia|]. apply Z.pow_pos_nonneg; lia.
Qed.

Lemma cosine_iters_not_negative total frac x k :
  0 <= total < 2 ^ 63 -> PrimFloat.leb 0 frac = true ->
  py_mul_int_float total frac = Returned x -> py_int x = Returned k ->
  0 <= k.
Proof.
  intros Htotal Hfrac Hx Hk. unfold py_mul_int_float, py_float_of_int in Hx.
  destruct (Z.ltb_spec (Z.abs total) (2 ^ 63)); [|lia].
  destruct (Z.ltb_spec total 0); [lia|]. simpl in Hx. injection Hx as <-.
  apply trunc_not_negative with (2 := Hk).
  rewrite mul_spec. apply SFmul_not_negative.
  - apply of_uint63_not_negative.
  - now apply leb_zero_not_negative.
Qed.

(** ** The two stages *)

(** The configuration [half_and_half] on [six_passes]: stage 1 stops at 3
    of 6 iterations in its second pass, stage 2 gets a horizon of 3 and
    stops at 6 in its second pass, leaving two of the six passes unused;
    each complete or stopped pass prints. *)
Example half_and_half_run :
  match Orchestrator.run_twostage (H := flat_lr) half_and_half six_passes with
  | Some (Returned run) =>
      cosine_iters run = 3 /\ stage_count (first_stage run) = 3 /\
      last_epoch (stage_sched (first_stage run)) = 3 /\
      second_stage_iters run = 3 /\ T_max (stage_sched (second_stage run)) = 3 /\
      stage_count (second_stage run) = 6 /\
      last_epoch (stage_sched (second_stage run)) = 3 /\
      length (stage_rest (second_stage run)) = 2%nat /\
      log_count <$> stage_printed (second_stage run) = [2; 3; 5; 6]
  | _ => False
  end.
Proof. vm_compute. auto 10. Qed.

(** * Further properties of the epoch functions *)

(** ** The counter an epoch call returns *)

Lemma ln_loop_counter total loader p :
  count_iters p < total ->
  let q := run_until LnOnly.batch_body total loader p in
  count_iters q = Z.min (count_iters p + Z.of_nat (length loader)) total /\
  Z.of_nat (batches_run q) =
    Z.of_nat (batches_run p) + Z.min (Z.of_nat (length loader)) (total - count_iters p).
Proof.
  revert p; induction loader as [|b rest IH]; intros p Hlt; cbn [run_until].
  - cbn zeta. simpl length. lia.
  - destruct (Z.eqb_spec (count_iters (LnOnly.batch_body b p)) total) as [Heq|Hne].
    + cbn zeta. simpl in *. lia.
    + simpl in Hne. destruct (IH (LnOnly.batch_body b p)) as [Hc Hr]; [simpl; lia|].
      cbn zeta in *. simpl in Hc, Hr |- *. lia.
Qed.

Lemma twostage_loop_counter total loader p :
  count_iters p < total ->
  count_iters (run_until TwoStage.batch_body total loader p)
    = Z.min (count_iters p + Z.of_nat (length (advancing loader))) total.
Proof.
  revert p; induction loader as [|b rest IH]; intros p Hlt; cbn [run_until].
  - simpl. lia.
  - rewrite advancing_cons.
    destruct (Z.eqb_spec (count_iters (TwoStage.batch_body b p)) total) as [Heq|Hne].
    + rewrite Heq. simpl in Heq.
      destruct (TwoStage.skip_lr_sched b); simpl length; lia.
    + rewrite IH.
      * simpl. destruct (TwoStage.skip_lr_sched b); simpl length; lia.
      * simpl in Hne |- *. destruct (TwoStage.skip_lr_sched b); lia.
Qed.

Lemma measurable_pass_averaged body total loader s count :
  unit_step body -> measurable loader = true ->
  0 < tot_samples (run_until body total loader (enter_pass s count)) < 2 ^ 63.
Proof.
  intros Hbody Hm. destruct loader as [|b rest]; [discriminate|].
  unfold measurable in Hm. apply andb_prop in Hm as [Hsizes Hbound].
  apply Z.ltb_lt in Hbound.
  pose proof (run_until_first _ total b rest (enter_pass s count) Hbody) as Hfirst.
  pose proof (run_until_samples _ total (b :: rest) (enter_pass s count) Hbody) as Htot.
  cbn zeta in Htot. cbn [enter_pass batches_run tot_samples] in Hfirst, Htot.
  rewrite Nat.sub_0_r in Htot. rewrite Htot.
  destruct (batches_run _) as [|k]; [lia|].
  pose proof (samples_take_pos k b rest Hsizes).
  pose proof (samples_take (S k) (b :: rest)). lia.
Qed.

(** X1.  Called below its budget, the single-stage [train_epoch] runs as many
    batches as the loader has or as the budget leaves, whichever is fewer,
    and the counter it returns is the smaller of the incoming counter plus
    the number of batches and the budget; it returns on every loader whose
    averages can be computed. *)
Theorem single_stage_counter `{LrSchedule} (s : scheduler) (loader : list batch)
    (count total : Z) :
  count < total ->
  let r := LnOnly.train_epoch s loader count total in
  let reached := Z.min (count + Z.of_nat (length loader)) total in
  count_iters (epoch_pass r) = reached /\
  Z.of_nat (batches_run (epoch_pass r)) = Z.min (Z.of_nat (length loader)) (total - count) /\
  (forall c, epoch_outcome r = Returned c -> c = reached) /\
  (measurable loader = true -> epoch_outcome r = Returned reached).
Proof.
  intros Hlt r reached. subst r.
  destruct (ln_loop_counter total loader (enter_pass s count) Hlt) as [Hc Hr].
  cbn zeta in Hc, Hr. cbn [enter_pass count_iters batches_run] in Hc, Hr.
  unfold LnOnly.train_epoch. rewrite ln_loop_shape, finish_epoch_pass.
  split; [exact Hc|]. split; [lia|]. split.
  - intros c Hret. apply finish_epoch_returned in Hret. now rewrite Hret.
  - intros Hm. fold reached in Hc. rewrite <- Hc. apply finish_epoch_averaged.
    apply measurable_pass_averaged; auto with loops.
Qed.

Lemma single_stage_counter_witness :
  2 < 10 /\
  epoch_outcome (LnOnly.train_epoch (H := flat_lr) (CosineAnnealingLR 10)
                   [steady_batch; overflow_batch; growth_batch] 2 10) = Returned 5.
Proof.
  split; [lia|].
  apply (single_stage_counter (H := flat_lr) (CosineAnnealingLR 10)
           [steady_batch; overflow_batch; growth_batch] 2 10); [lia|reflexivity].
Defined.

(** X2.  Called below their budget, the two-stage epoch functions return the
    smaller of the incoming counter plus the number of batches the scaler
    does not skip and the budget, and they return on every loader whose
    averages can be computed. *)
Theorem two_stage_counter `{LrSchedule} (s : scheduler) (loader : list batch)
    (count total : Z) :
  count < total ->
  let r := TwoStage.train_epoch s loader count total in
  let reached := Z.min (count + Z.of_nat (length (advancing loader))) total in
  count_iters (epoch_pass r) = reached /\
  (forall c, epoch_outcome r = Returned c -> c = reached) /\
  (measurable loader = true -> epoch_outcome r = Returned reached) /\
  TwoStage.train_epoch_second_stage s loader count total = r.
Proof.
  intros Hlt r reached. subst r.
  pose proof (twostage_loop_counter total loader (enter_pass s count) Hlt) as Hc.
  cbn [enter_pass count_iters] in Hc. fold reached in Hc.
  split; [|split; [|split; [|apply second_stage_same]]];
    unfold TwoStage.train_epoch; rewrite first_stage_shape, ?finish_epoch_pass.
  - exact Hc.
  - intros c Hret. apply finish_epoch_returned in Hret. now rewrite Hret.
  - intros Hm. rewrite <- Hc. apply finish_epoch_averaged.
    apply measurable_pass_averaged; auto with loops.
Qed.

Lemma two_stage_counter_witness :
  2 < 10 /\
  epoch_outcome (TwoStage.train_epoch (H := flat_lr) (CosineAnnealingLR 10)
                   [steady_batch; overflow_batch; growth_batch] 2 10) = Returned 4.
Proof.
  split; [lia|].
  apply (two_stage_counter (H := flat_lr) (CosineAnnealingLR 10)
           [steady_batch; overflow_batch; growth_batch] 2 10); [lia|reflexivity].
Defined.

(** ** A counter at or past the budget *)

Lemma ln_loop_past total loader p :
  total <= count_iters p ->
  let q := run_until LnOnly.batch_body total loader p in
  count_iters q = count_iters p + Z.of_nat (length loader) /\
  batches_run q = (batches_run p + length loader)%nat.
Proof.
  revert p; induction loader as [|b rest IH]; intros p Hge; cbn [run_until].
  - cbn zeta. simpl length. split; lia.
  - destruct (Z.eqb_spec (count_iters (LnOnly.batch_body b p)) total) as [Heq|_].
    + simpl in Heq. lia.
    + destruct (IH (LnOnly.batch_body b p)) as [Hc Hr]; [simpl; lia|].
      cbn zeta in *. simpl in Hc, Hr |- *. split; lia.
Qed.

Lemma twostage_loop_past total loader p :
  total < count_iters p ->
  let q := run_until TwoStage.batch_body total loader p in
  count_iters q = count_iters p + Z.of_nat (length (advancing loader)) /\
  batches_run q = (batches_run p + length loader)%nat.
Proof.
  revert p; induction loader as [|b rest IH]; intros p Hgt; cbn [run_until].
  - cbn zeta. simpl. split; lia.
  - rewrite advancing_cons.
    destruct (Z.eqb_spec (count_iters (TwoStage.batch_body b p)) total) as [Heq|_].
    + simpl in Heq. destruct (TwoStage.skip_lr_sched b); lia.
    + destruct (IH (TwoStage.batch_body b p)) as [Hc Hr].
      { simpl. destruct (TwoStage.skip_lr_sched b); lia. }
      cbn zeta in *. simpl in Hc, Hr |- *.
      destruct (TwoStage.skip_lr_sched b); simpl length; split; lia.
Qed.

(** X3.  The budget test is an equality.  The single-stage [train_epoch]
    called on a loader with a batch and a counter already at or past the
    budget runs every batch, returns the counter plus the number of
    batches, beyond the budget, and prints no line; the two-stage epoch
    functions called with a counter past the budget do the same, counting
    the batches the scaler does not skip. *)
Theorem counter_past_budget_overshoots `{LrSchedule} (s : scheduler)
    (loader : list batch) (count total : Z) :
  total <= count -> loader <> [] ->
  let one := LnOnly.train_epoch s loader count total in
  let two := TwoStage.train_epoch s loader count total in
  (epoch_outcome one = Returned (count + Z.of_nat (length loader)) /\
   batches_run (epoch_pass one) = length loader /\ epoch_printed one = []) /\
  (total < count ->
   epoch_outcome two = Returned (count + Z.of_nat (length (advancing loader))) /\
   batches_run (epoch_pass two) = length loader /\ epoch_printed two = []) /\
  TwoStage.train_epoch_second_stage s loader count total = two.
Proof.
  intros Hge Hloader one two. subst one two.
  split; [|split; [|apply second_stage_same]].
  - destruct (ln_loop_past total loader (enter_pass s count) Hge) as [Hc Hr].
    cbn zeta in Hc, Hr. cbn [enter_pass count_iters batches_run] in Hc, Hr.
    unfold LnOnly.train_epoch. rewrite ln_loop_shape, finish_epoch_over.
    + simpl. rewrite Hc. auto.
    + rewrite Hc. destruct loader; [contradiction|simpl length; lia].
  - intros Hgt.
    destruct (twostage_loop_past total loader (enter_pass s count) Hgt) as [Hc Hr].
    cbn zeta in Hc, Hr. cbn [enter_pass count_iters batches_run] in Hc, Hr.
    unfold TwoStage.train_epoch. rewrite first_stage_shape, finish_epoch_over.
    + simpl. rewrite Hc. auto.
    + rewrite Hc. lia.
Qed.

Lemma counter_past_budget_overshoots_witness :
  3 <= 3 /\ [steady_batch; steady_batch] <> [] /\
  epoch_outcome (LnOnly.train_epoch (H := flat_lr) (CosineAnnealingLR 3)
                   [steady_batch; steady_batch] 3 3) = Returned 5.
Proof.
  assert (Hge : 3 <= 3) by lia.
  assert (Hloader : [steady_batch; steady_batch] <> []) by discriminate.
  split; [exact Hge|]. split; [exact Hloader|].
  exact (proj1 (proj1 (counter_past_budget_overshoots (H := flat_lr) (CosineAnnealingLR 3)
                         [steady_batch; steady_batch] 3 3 Hge Hloader))).
Defined.

(** ** Passes on which every step is skipped *)

Lemma advancing_none bs k :
  forallb TwoStage.skip_lr_sched bs = true -> advancing (take k bs) = [].
Proof.
  revert k; induction bs as [|b bs IH]; intros [|k] Hall; try reflexivity.
  simpl in Hall. apply andb_prop in Hall as [Hb Hbs].
  cbn [take]. rewrite advancing_cons, Hb. now apply IH.
Qed.

Lemma stalled_epoch `{LrSchedule} s e count budget :
  stalls e = true -> count < budget ->
  epoch_outcome (TwoStage.train_epoch s e count budget) = Returned count /\
  sched (epoch_pass (TwoStage.train_epoch s e count budget)) = s.
Proof.
  intros [Hall Hm]%andb_prop Hlt.
  destruct (first_stage_counts s e count budget) as (Hc & Hl & Ht).
  cbn zeta in Hc, Hl, Ht. unfold processed in Hc, Hl.
  rewrite advancing_none in Hc, Hl by assumption. simpl in Hc, Hl.
  split.
  - replace (Returned count)
      with (Returned (A := Z) (count_iters (epoch_pass (TwoStage.train_epoch s e count budget))))
      by (f_equal; lia).
    rewrite first_stage_pass. unfold TwoStage.train_epoch. rewrite first_stage_shape.
    apply finish_epoch_averaged, measurable_pass_averaged; auto with loops.
  - destruct (sched _) as [tm le], s as [tm' le']. simpl in *. f_equal; lia.
Qed.

Lemma while_below_ext epoch epoch' dbg budget epochs s count out :
  (forall s e c b, epoch s e c b = epoch' s e c b) ->
  while_below epoch dbg budget epochs s count out
    = while_below epoch' dbg budget epochs s count out.
Proof.
  intros Hsame. revert s count out.
  induction epochs as [|e rest IH]; intros s count out; cbn [while_below]; [reflexivity|].
  rewrite Hsame. destruct (count <? budget); [|reflexivity].
  destruct (epoch_outcome _); [|reflexivity]. destruct dbg; [reflexivity|apply IH].
Qed.

(** X4.  A pass on which the scaler skips every step gives back the
    counter and the scheduler it was given; so the [while] loops of
    [run_twostage], which wait for the counter to reach the budget, do not
    end on such passes, however many of them the loader supplies. *)
Theorem stalled_passes_never_end `{LrSchedule} (epochs : list (list batch))
    (s : scheduler) (count budget : Z) (out : list log_line) :
  count < budget ->
  Forall (fun e => stalls e = true) epochs ->
  (forall e, e ∈ epochs ->
     epoch_outcome (TwoStage.train_epoch s e count budget) = Returned count /\
     sched (epoch_pass (TwoStage.train_epoch s e count budget)) = s) /\
  while_below TwoStage.train_epoch false budget epochs s count out = None /\
  while_below TwoStage.train_epoch_second_stage false budget epochs s count out = None.
Proof.
  intros Hlt Hstall. split; [|split].
  - intros e He. apply stalled_epoch; [|exact Hlt].
    rewrite Forall_forall in Hstall. now apply Hstall.
  - revert out. induction Hstall as [|e rest He Hrest IH]; intros out; cbn [while_below];
      destruct (Z.ltb_spec count budget); try lia; [reflexivity|].
    destruct (stalled_epoch s e count budget He Hlt) as [-> ->]. apply IH.
  - rewrite (while_below_ext _ TwoStage.train_epoch) by (intros; apply second_stage_same).
    revert out. induction Hstall as [|e rest He Hrest IH]; intros out; cbn [while_below];
      destruct (Z.ltb_spec count budget); try lia; [reflexivity|].
    destruct (stalled_epoch s e count budget He Hlt) as [-> ->]. apply IH.
Qed.

Lemma stalled_passes_never_end_witness :
  0 < 3 /\ Forall (fun e => stalls e = true) two_stalled_passes /\
  while_below (TwoStage.train_epoch (H := flat_lr)) false 3 two_stalled_passes
    (CosineAnnealingLR 3) 0 [] = None.
Proof.
  assert (Hstall : Forall (fun e => stalls e = true) two_stalled_passes)
    by (repeat constructor).
  split; [lia|]. split; [exact Hstall|].
  apply (stalled_passes_never_end (H := flat_lr) two_stalled_passes
           (CosineAnnealingLR 3) 0 3 []); [lia|exact Hstall].
Defined.

(** * Further properties of the drivers *)

(** ** The [while] loops, for any epoch function *)

Lemma while_below_reaches_on good epoch budget epochs s count out st :
  advances_on good epoch -> count <= budget ->
  while_below epoch false budget epochs s count out = Some (Returned st) ->
  stage_count st = budget.
Proof.
  intros Hepoch. revert s count out.
  induction epochs as [|e rest IH]; intros s count out Hle; cbn [while_below].
  - destruct (Z.ltb_spec count budget); [discriminate|]. intros [= <-]. simpl. lia.
  - destruct (Z.ltb_spec count budget) as [Hlt|Hge].
    + destruct (Hepoch s e count budget Hlt) as (Hret & _).
      destruct (epoch_outcome (epoch s e count budget)) as [c|ex]; [|discriminate].
      apply IH. apply (Hret c eq_refl).
    + intros [= <-]. simpl. lia.
Qed.

Lemma while_below_returns_on good epoch budget epochs s count out :
  advances_on good epoch -> count <= budget ->
  Forall (fun e => good e = true) epochs ->
  budget - count <= Z.of_nat (length epochs) ->
  exists st, while_below epoch false budget epochs s count out = Some (Returned st).
Proof.
  intros Hepoch. revert s count out.
  induction epochs as [|e rest IH]; intros s count out Hle Hgood Hlen; cbn [while_below].
  - simpl in Hlen. destruct (Z.ltb_spec count budget); [lia|]. eauto.
  - destruct (Z.ltb_spec count budget) as [Hlt|Hge]; [|eauto].
    apply Forall_cons in Hgood as [He Hrest].
    destruct (Hepoch s e count budget Hlt) as (_ & Hstep).
    destruct (Hstep He) as (c & -> & Hc).
    apply IH; [lia|assumption|simpl in Hlen; lia].
Qed.

Lemma while_below_in_step epoch dbg budget epochs s count out st :
  in_step epoch ->
  while_below epoch dbg budget epochs s count out = Some (Returned st) ->
  last_epoch (stage_sched st) - stage_count st = last_epoch s - count /\
  T_max (stage_sched st) = T_max s.
Proof.
  intros Hepoch. revert s count out.
  induction epochs as [|e rest IH]; intros s count out; cbn [while_below].
  - destruct (count <? budget); [discriminate|]. intros [= <-]. simpl. split; lia.
  - destruct (count <? budget); [|intros [= <-]; simpl; split; lia].
    pose proof (Hepoch s e count budget) as Hstep.
    destruct (epoch_outcome (epoch s e count budget)) as [c|ex]; [|discriminate].
    destruct (Hstep c eq_refl) as [Hl Ht].
    destruct dbg.
    + intros [= <-]. simpl. split; [lia|exact Ht].
    + intros Hrun. apply IH in Hrun as [Hl' Ht']. split; [lia|congruence].
Qed.

Lemma while_below_debug good epoch budget epochs s count out :
  advances_on good epoch -> count <= budget ->
  (forall st, while_below epoch true budget epochs s count out = Some (Returned st) ->
     count <= stage_count st <= budget /\
     (length epochs <= length (stage_rest st) + 1)%nat) /\
  (epochs <> [] -> while_below epoch true budget epochs s count out <> None).
Proof.
  intros Hepoch Hle. destruct epochs as [|e rest]; cbn [while_below];
    destruct (Z.ltb_spec count budget) as [Hlt|Hge].
  - split; [discriminate|contradiction].
  - split; [|discriminate]. intros st [= <-]. simpl. lia.
  - destruct (Hepoch s e count budget Hlt) as (Hret & _).
    destruct (epoch_outcome (epoch s e count budget)) as [c|ex].
    + split; [|discriminate]. intros st [= <-]. simpl.
      specialize (Hret c eq_refl). lia.
    + split; discriminate.
  - split; [|discriminate]. intros st [= <-]. simpl. lia.
Qed.

Lemma ln_advances `{LrSchedule} : advances_on measurable LnOnly.train_epoch.
Proof.
  intros s e count budget Hlt.
  destruct (ln_loop_counter budget e (enter_pass s count) Hlt) as [Hc _].
  cbn zeta in Hc. cbn [enter_pass count_iters] in Hc.
  unfold LnOnly.train_epoch. rewrite ln_loop_shape. split.
  - intros c Hret. apply finish_epoch_returned in Hret. lia.
  - intros Hm. eexists. split.
    + apply finish_epoch_averaged, measurable_pass_averaged; auto with loops.
    + rewrite Hc. destruct e; [discriminate|]. simpl length. lia.
Qed.

Lemma twostage_advances `{LrSchedule} : advances_on productive TwoStage.train_epoch.
Proof.
  intros s e count budget Hlt.
  destruct (first_stage_budgeted s e count budget Hlt) as (Hret & Hstep & _). auto.
Qed.

Lemma ln_in_step `{LrSchedule} : in_step LnOnly.train_epoch.
Proof.
  intros s e count budget c Hret.
  destruct (ln_epoch_counts s e count budget) as (Hc & Hl & Ht).
  cbn zeta in Hc, Hl, Ht. split; [|exact Ht].
  assert (c = count_iters (epoch_pass (LnOnly.train_epoch s e count budget))).
  { rewrite ln_epoch_pass. unfold LnOnly.train_epoch in Hret.
    apply finish_epoch_returned in Hret. now rewrite <- ln_loop_shape. }
  lia.
Qed.

Lemma twostage_in_step `{LrSchedule} : in_step TwoStage.train_epoch.
Proof.
  intros s e count budget c Hret.
  destruct (first_stage_counts s e count budget) as (Hc & Hl & Ht).
  cbn zeta in Hc, Hl, Ht. split; [|exact Ht].
  assert (c = count_iters (epoch_pass (TwoStage.train_epoch s e count budget))).
  { rewrite first_stage_pass. unfold TwoStage.train_epoch in Hret.
    apply finish_epoch_returned in Hret. now rewrite <- first_stage_shape. }
  lia.
Qed.

Lemma second_stage_in_step `{LrSchedule} : in_step TwoStage.train_epoch_second_stage.
Proof.
  intros s e count budget c. rewrite second_stage_same. apply twostage_in_step.
Qed.

(** ** The single-stage driver *)

(** X5.  Outside debug mode the loop of [run_ln_only] ends as soon as it has
    been given as many passes as the budget counts, each with a batch and
    samples to average, whatever the scaler skips: the counter stands at
    [n_iters * shots] and the scheduler, created with that horizon, has
    been stepped exactly that many times. *)
Theorem single_stage_run_completes `{LrSchedule} (a : args) (epochs : list (list batch)) :
  debug a = false ->
  0 <= n_iters a * shots a <= Z.of_nat (length epochs) ->
  Forall (fun e => measurable e = true) epochs ->
  exists st,
    SingleStage.run_ln_only a epochs = Some (Returned st) /\
    stage_count st = n_iters a * shots a /\
    last_epoch (stage_sched st) = n_iters a * shots a /\
    T_max (stage_sched st) = n_iters a * shots a.
Proof.
  intros Hdebug Htotal Hpasses. unfold SingleStage.run_ln_only. rewrite Hdebug.
  destruct (while_below_returns_on measurable LnOnly.train_epoch (n_iters a * shots a)
              epochs (CosineAnnealingLR (n_iters a * shots a)) 0 [])
    as (st & Hst); auto using ln_advances; [lia|lia|].
  exists st. split; [exact Hst|].
  pose proof (while_below_reaches_on _ _ _ _ _ _ _ _ ln_advances (proj1 Htotal) Hst) as Hc.
  destruct (while_below_in_step _ _ _ _ _ _ _ _ ln_in_step Hst) as [Hl Ht].
  simpl in Hl, Ht. split; [exact Hc|]. split; [lia|exact Ht].
Qed.

Lemma single_stage_run_completes_witness :
  Forall (fun e => measurable e = true) six_passes /\
  exists st,
    SingleStage.run_ln_only (H := flat_lr) six_iterations six_passes = Some (Returned st) /\
    stage_count st = 6.
Proof.
  assert (Hpasses : Forall (fun e => measurable e = true) six_passes)
    by (repeat constructor).
  split; [exact Hpasses|].
  destruct (single_stage_run_completes (H := flat_lr) six_iterations six_passes)
    as (st & Hst & Hc & _); [reflexivity|simpl; lia|exact Hpasses|].
  exists st. split; [exact Hst|exact Hc].
Defined.

(** ** The two-stage driver *)

Lemma run_twostage_stages `{LrSchedule} a epochs run :
  Orchestrator.run_twostage a epochs = Some (Returned run) ->
  total_iters run = n_iters a * shots a /\
  Orchestrator.cosine_iters_of a = Returned (cosine_iters run) /\
  while_below TwoStage.train_epoch (debug a) (cosine_iters run) epochs
    (CosineAnnealingLR (cosine_iters run)) 0 [] = Some (Returned (first_stage run)) /\
  second_stage_iters run = total_iters run - stage_count (first_stage run) /\
  while_below TwoStage.train_epoch_second_stage (debug a) (total_iters run)
    (stage_rest (first_stage run)) (CosineAnnealingLR (second_stage_iters run))
    (stage_count (first_stage run)) (stage_printed (first_stage run))
    = Some (Returned (second_stage run)).
Proof.
  unfold Orchestrator.run_twostage, Orchestrator.total_iters_of.
  destruct (Orchestrator.cosine_iters_of a) as [cosine|ex]; [|discriminate].
  destruct (while_below TwoStage.train_epoch _ cosine _ _ _ _) as [[st1|ex]|] eqn:Hst1;
    try discriminate.
  destruct (while_below TwoStage.train_epoch_second_stage _ _ _ _ _ _)
    as [[st2|ex]|] eqn:Hst2; try discriminate.
  intros [= <-]. simpl. auto.
Qed.

(** X6.  Outside debug mode, in a run of [run_twostage] that ends with a
    sub-budget between zero and [total_iters], each stage steps its
    scheduler exactly as many times as the horizon the scheduler was
    created with: [cosine_iters] times in stage 1 and
    [total_iters - cosine_iters] times in stage 2. *)
Theorem schedulers_run_to_horizon `{LrSchedule} (a : args) (epochs : list (list batch))
    (run : training) :
  debug a = false ->
  Orchestrator.run_twostage a epochs = Some (Returned run) ->
  0 <= cosine_iters run <= total_iters run ->
  last_epoch (stage_sched (first_stage run)) = cosine_iters run /\
  T_max (stage_sched (first_stage run)) = cosine_iters run /\
  second_stage_iters run = total_iters run - cosine_iters run /\
  last_epoch (stage_sched (second_stage run)) = second_stage_iters run /\
  T_max (stage_sched (second_stage run)) = second_stage_iters run.
Proof.
  intros Hdebug Hrun Hsub.
  destruct (run_twostage_stages a epochs run Hrun) as (_ & _ & Hst1 & Hsecond & Hst2).
  rewrite Hdebug in Hst1, Hst2.
  destruct (while_below_reaches _ _ _ _ _ _ _ first_stage_budgeted (proj1 Hsub) Hst1)
    as [Hc1 _].
  destruct (while_below_in_step _ _ _ _ _ _ _ _ twostage_in_step Hst1) as [Hl1 Ht1].
  destruct (while_below_in_step _ _ _ _ _ _ _ _ second_stage_in_step Hst2) as [Hl2 Ht2].
  assert (Hle : stage_count (first_stage run) <= total_iters run) by lia.
  destruct (while_below_reaches _ _ _ _ _ _ _ second_stage_budgeted Hle Hst2) as [Hc2 _].
  simpl in Hl1, Ht1, Hl2, Ht2. repeat split; lia.
Qed.

Lemma schedulers_run_to_horizon_witness :
  exists run,
    Orchestrator.run_twostage (H := flat_lr) half_and_half six_passes = Some (Returned run) /\
    last_epoch (stage_sched (second_stage run)) = second_stage_iters run.
Proof.
  eexists. split; [vm_compute; reflexivity|].
  apply (schedulers_run_to_horizon (H := flat_lr) half_and_half six_passes);
    [reflexivity | vm_compute; reflexivity | simpl; lia].
Defined.

(** X7.  In debug mode each [while] loop of [run_twostage] makes at most
    one epoch call: a run that ends has used at most two passes, its
    stage-1 counter is at most the sub-budget, stage 2 gets the horizon
    [total_iters] minus that counter, and the final counter is at most
    [total_iters]; and two passes are enough for the run to end, with a
    result or with an exception. *)
Theorem debug_runs_one_pass_per_stage `{LrSchedule} (a : args)
    (epochs : list (list batch)) (cosine : Z) :
  debug a = true ->
  Orchestrator.cosine_iters_of a = Returned cosine ->
  0 <= cosine <= n_iters a * shots a ->
  (forall run, Orchestrator.run_twostage a epochs = Some (Returned run) ->
     0 <= stage_count (first_stage run) <= cosine /\
     second_stage_iters run = n_iters a * shots a - stage_count (first_stage run) /\
     T_max (stage_sched (second_stage run)) = second_stage_iters run /\
     stage_count (first_stage run) <= stage_count (second_stage run) <= n_iters a * shots a /\
     (length epochs <= length (stage_rest (second_stage run)) + 2)%nat) /\
  ((2 <= length epochs)%nat -> Orchestrator.run_twostage a epochs <> None).
Proof.
  intros Hdebug Hcosine Hsub. split.
  - intros run Hrun.
    destruct (run_twostage_stages a epochs run Hrun)
      as (Htotal & Hcos & Hst1 & Hsecond & Hst2).
    rewrite Hcosine in Hcos. injection Hcos as Hcos. rewrite <- Hcos in *.
    rewrite Hdebug, Htotal in *.
    destruct (while_below_debug productive TwoStage.train_epoch cosine epochs
                (CosineAnnealingLR cosine) 0 [] twostage_advances (proj1 Hsub))
      as [Hone _].
    destruct (Hone _ Hst1) as [Hc1 Hr1].
    assert (Hle : stage_count (first_stage run) <= n_iters a * shots a) by lia.
    rewrite (while_below_ext _ TwoStage.train_epoch) in Hst2
      by (intros; apply second_stage_same).
    destruct (while_below_debug productive TwoStage.train_epoch (n_iters a * shots a)
                (stage_rest (first_stage run)) (CosineAnnealingLR (second_stage_iters run))
                (stage_count (first_stage run)) (stage_printed (first_stage run))
                twostage_advances Hle) as [Htwo _].
    destruct (Htwo _ Hst2) as [Hc2 Hr2].
    destruct (while_below_in_step _ _ _ _ _ _ _ _ twostage_in_step Hst2) as [_ Ht2].
    simpl in Ht2. repeat split; try lia; try exact Ht2.
  - intros Hlen. unfold Orchestrator.run_twostage. rewrite Hcosine, Hdebug.
    destruct (while_below_debug productive TwoStage.train_epoch cosine epochs
                (CosineAnnealingLR cosine) 0 [] twostage_advances (proj1 Hsub))
      as [Hone Hsome].
    destruct (while_below TwoStage.train_epoch true cosine epochs _ 0 [])
      as [[st1|ex]|]; [|discriminate|].
    + destruct (Hone st1 eq_refl) as [Hc1 Hr1].
      rewrite (while_below_ext _ TwoStage.train_epoch)
        by (intros; apply second_stage_same).
      destruct (while_below_debug productive TwoStage.train_epoch
                  (Orchestrator.total_iters_of a) (stage_rest st1)
                  (CosineAnnealingLR (Orchestrator.total_iters_of a - stage_count st1))
                  (stage_count st1) (stage_printed st1) twostage_advances)
        as [_ Hsome2]; [unfold Orchestrator.total_iters_of; lia|].
      destruct (while_below TwoStage.train_epoch true _ (stage_rest st1) _ _ _)
        as [[st2|ex]|]; try discriminate.
      exfalso. apply Hsome2; [|reflexivity].
      destruct (stage_rest st1); [simpl in Hr1; lia|discriminate].
    + exfalso. apply Hsome; [|reflexivity]. destruct epochs; [simpl in Hlen; lia|discriminate].
Qed.

Lemma debug_runs_one_pass_per_stage_witness :
  Orchestrator.cosine_iters_of half_and_half_debug = Returned 3 /\
  Orchestrator.run_twostage (H := flat_lr) half_and_half_debug six_passes <> None.
Proof.
  assert (Hcosine : Orchestrator.cosine_iters_of half_and_half_debug = Returned 3)
    by (vm_compute; reflexivity).
  split; [exact Hcosine|].
  apply (debug_runs_one_pass_per_stage (H := flat_lr) half_and_half_debug six_passes 3);
    [reflexivity | exact Hcosine | simpl; lia | simpl; lia].
Defined.

(** The debug run above: one pass per stage, counters 2 and 4 of budgets
    3 and 6, and a stage-2 horizon of 4. *)
Example half_and_half_debug_run :
  match Orchestrator.run_twostage (H := flat_lr) half_and_half_debug six_passes with
  | Some (Returned run) =>
      stage_count (first_stage run) = 2 /\ second_stage_iters run = 4 /\
      stage_count (second_stage run) = 4 /\
      length (stage_rest (second_stage run)) = 4%nat
  | _ => False
  end.
Proof. vm_compute. auto. Qed.

(** X8.  A train loader that yields no batch: the first epoch call of
    [run_ln_only], and the first epoch call of whichever stage of
    [run_twostage] has iterations to make, ends in [ZeroDivisionError],
    and so does the driver, in debug mode or not. *)
Theorem empty_train_loader_fails `{LrSchedule} (a : args) (epochs : list (list batch))
    (cosine : Z) :
  0 < n_iters a * shots a ->
  Orchestrator.cosine_iters_of a = Returned cosine ->
  SingleStage.run_ln_only a ([] :: epochs) = Some (Raised ZeroDivisionError) /\
  Orchestrator.run_twostage a ([] :: epochs) = Some (Raised ZeroDivisionError).
Proof.
  intros Htotal Hcosine. split.
  - unfold SingleStage.run_ln_only. cbn [while_below].
    destruct (Z.ltb_spec 0 (n_iters a * shots a)); [|lia].
    unfold LnOnly.train_epoch. cbn [LnOnly.batch_loop].
    rewrite finish_epoch_nothing. unfold on_empty_loader.
    destruct (Z.leb_spec 0 (n_iters a * shots a)); [reflexivity|lia].
  - unfold Orchestrator.run_twostage, Orchestrator.total_iters_of. rewrite Hcosine.
    cbn [while_below]. destruct (Z.ltb_spec 0 cosine) as [Hpos|Hnone].
    + unfold TwoStage.train_epoch. cbn [TwoStage.first_stage_loop].
      rewrite finish_epoch_nothing. unfold on_empty_loader.
      destruct (Z.leb_spec 0 cosine); [reflexivity|lia].
    + cbn [stage_count stage_rest stage_sched stage_printed while_below].
      destruct (Z.ltb_spec 0 (n_iters a * shots a)); [|lia].
      unfold TwoStage.train_epoch_second_stage. cbn [TwoStage.second_stage_loop].
      rewrite finish_epoch_nothing. unfold on_empty_loader.
      destruct (Z.leb_spec 0 (n_iters a * shots a)); [reflexivity|lia].
Qed.

Lemma empty_train_loader_fails_witness :
  0 < n_iters half_and_half * shots half_and_half /\
  Orchestrator.run_twostage (H := flat_lr) half_and_half [[]; []]
    = Some (Raised ZeroDivisionError).
Proof.
  split; [simpl; lia|].
  apply (empty_train_loader_fails (H := flat_lr) half_and_half [[]] 3);
    [simpl; lia | vm_compute; reflexivity].
Defined.

(** * Further properties of the classifier *)

(** ** The name-to-row mapping *)

Lemma dict_fill_last {V : Type} (pairs : list (string * V)) (d : gmap string V) k v :
  foldl (fun d kv => <[kv.1 := kv.2]> d) d pairs !! k = Some v ->
  (exists j, pairs !! j = Some (k, v) /\
             forall j' v', (j < j')%nat -> pairs !! j' <> Some (k, v')) \/
  ((k ∉ pairs.*1) /\ d !! k = Some v).
Proof.
  revert d; induction pairs as [|[k' v'] pairs IH]; intros d Hk; simpl in *.
  - right. split; [apply not_elem_of_nil|exact Hk].
  - apply IH in Hk as [(j & Hj & Hlast)|[Hout Hd]].
    + left. exists (S j). split; [exact Hj|].
      intros [|j'] w Hlt; [lia|]. simpl. apply Hlast. lia.
    + simpl in Hd. destruct (decide (k' = k)) as [->|Hne].
      * rewrite lookup_insert_eq in Hd. injection Hd as ->.
        left. exists 0%nat. split; [reflexivity|].
        intros [|j'] w Hlt Hw; [lia|]. simpl in Hw. apply Hout.
        apply list_elem_of_fmap. exists (k, w). split; [reflexivity|].
        eapply list_elem_of_lookup_2. eassumption.
      * rewrite lookup_insert_ne in Hd by assumption. right. split; [|exact Hd].
        apply not_elem_of_cons. split; [congruence|exact Hout].
Qed.

Lemma enumerate_pairs (classnames : list string) j c i :
  zip classnames (seq 0 (length classnames)) !! j = Some (c, i) <->
  classnames !! j = Some c /\ i = j.
Proof.
  rewrite lookup_zip_Some. split.
  - intros [Hc Hi]. split; [exact Hc|].
    apply lookup_seq in Hi. lia.
  - intros [Hc ->]. split; [exact Hc|].
    apply lookup_seq. split; [reflexivity|]. eapply lookup_lt_Some. eassumption.
Qed.

Lemma enumerate_keys (classnames : list string) :
  (zip classnames (seq 0 (length classnames))).*1 = classnames.
Proof. apply fst_zip. rewrite length_seq. lia. Qed.

(** X9.  The mapping that [__init__] builds sends a class name to the
    position of its last occurrence in [classnames]: a name that occurs
    once is sent to its position, a name that does not occur is not a key,
    and an earlier position of a repeated name is the value of no key. *)
Theorem cat2id_is_last_position `{Backend} (classnames : list string)
    (template c : string) :
  let cat2id := SSC.cat2id (SSC.init classnames template) in
  (forall i, cat2id !! c = Some i ->
     classnames !! i = Some c /\
     forall j, classnames !! j = Some c -> (j <= i)%nat) /\
  (cat2id !! c = None <-> c ∉ classnames) /\
  (NoDup classnames -> forall i, classnames !! i = Some c -> cat2id !! c = Some i).
Proof.
  cbn zeta. cbn [SSC.init SSC.cat2id]. unfold enumerate_dict. split; [|split].
  - intros i Hi. apply dict_fill_last in Hi as [(j & Hj & Hlast)|[_ Hempty]].
    + apply enumerate_pairs in Hj as [Hj ->]. split; [exact Hj|].
      intros j' Hj'. destruct (Nat.le_gt_cases j' j) as [|Hlt]; [assumption|].
      exfalso. apply (Hlast j' j' Hlt). now apply enumerate_pairs.
    + rewrite lookup_empty in Hempty. discriminate.
  - split.
    + intros Hnone Hin.
      destruct (dict_of_present (zip classnames (seq 0 (length classnames))) c) as [i Hi].
      * now rewrite enumerate_keys.
      * congruence.
    + intros Hout. apply dict_of_absent. now rewrite enumerate_keys.
  - intros Hnd i Hi. apply dict_of_nodup with (j := i).
    + now rewrite enumerate_keys.
    + now apply enumerate_pairs.
Qed.

(** With a repeated name the first row can no longer be reached by name. *)
Example repeated_classname :
  SSC.cat2id (SSC.init (H := symbolic) ["dog"; "cat"; "dog"] "a photo of a {}.") !! "dog"
  = Some 2%nat.
Proof. vm_compute. reflexivity. Qed.

(** ** Calls of [infer] that cannot fail *)

Section Inference.
Context `{Backend}.
Implicit Types (self : SSC.t).

Lemma rows_in_range_enumerated self (classnames cats : list string) :
  SSC.cat2id self = enumerate_dict classnames ->
  length (SSC.classifier self) = length classnames ->
  rows_in_range self cats = true.
Proof.
  intros Hmap Hlen. unfold rows_in_range. apply forallb_forall. intros cat _.
  rewrite Hmap.
  destruct (enumerate_dict classnames !! cat) as [i|] eqn:Hi; [|reflexivity].
  apply bool_decide_eq_true. rewrite Hlen.
  apply dict_of_member, elem_of_zip_r, elem_of_seq in Hi. lia.
Qed.

Lemma infer_first self x cats template once built :
  once = false \/ SSC.inference_classifier self = None ->
  SSC.build_classifier self x cats template = Returned built ->
  SSC.infer self x cats template once
    = (Returned (similarity (normalize <$> backbone x) built),
       with_cache self built (SSC.missing_classnames self cats)).
Proof.
  intros Hfirst Hbuilt. unfold SSC.infer.
  replace (if once then SSC.inference_classifier self else None)
    with (@None (list tensor))
    by (destruct Hfirst as [->| ->]; [|destruct once]; reflexivity).
  now rewrite Hbuilt.
Qed.

Lemma infer_keeps self x cats template once :
  let after := (SSC.infer self x cats template once).2 in
  SSC.classifier after = SSC.classifier self /\
  SSC.cat2id after = SSC.cat2id self /\
  (SSC.text_encodings after = SSC.text_encodings self \/
   SSC.text_encodings after
     = SSC.text_encodings self ++ [SSC.missing_classnames self cats]).
Proof.
  cbn zeta. unfold SSC.infer.
  destruct (if once then SSC.inference_classifier self else None); [simpl; auto|].
  destruct (SSC.build_classifier self x cats template); simpl; auto.
Qed.

End Inference.

(** X10.  On an instance whose mapping is the one [__init__] builds for
    [classnames] and whose classifier matrix has one row per class name,
    as training leaves it, and with a text encoder that answers one row
    per name, [infer] returns logits for every category list that is not
    empty: it raises neither [IndexError] nor [KeyError]. *)
Theorem infer_returns `{Backend} (self : SSC.t) (classnames categories : list string)
    (x : images) (template : string) (once : bool) :
  (forall t names, length (encode_text t names) = length names) ->
  SSC.cat2id self = enumerate_dict classnames ->
  length (SSC.classifier self) = length classnames ->
  categories <> [] ->
  exists lg, (SSC.infer self x categories template once).1 = Returned lg.
Proof.
  intros Hencoder Hmap Hlen Hcats.
  destruct (if once then SSC.inference_classifier self else None) as [cached|] eqn:Hcache.
  - unfold SSC.infer. rewrite Hcache. simpl. eauto.
  - destruct (build_classifier_spec self x categories template) as (rows & Hbuilt & _).
    { split; [exact Hcats|]. split; [|apply Hencoder].
      now apply rows_in_range_enumerated with (classnames := classnames). }
    unfold SSC.infer. rewrite Hcache, Hbuilt. simpl. eauto.
Qed.

Lemma infer_returns_witness :
  exists lg,
    (SSC.infer (H := symbolic) pets "image" ["fox"; "dog"; "fox"] "a photo of {}." true).1
    = Returned lg.
Proof.
  apply (infer_returns (H := symbolic) pets ["dog"; "cat"]);
    [intros; apply length_fmap | reflexivity | reflexivity | discriminate].
Defined.

(** ** Rows by category *)

Lemma rowwise_embedding `{Backend} (enc : string -> tensor) (names : list string) cat :
  cat ∈ names -> dict_of (zip names (enc <$> names)) !! cat = Some (enc cat).
Proof.
  intros Hin.
  destruct (dict_of_present (zip names (enc <$> names)) cat) as [v Hv].
  { rewrite fst_zip by (rewrite length_fmap; lia). exact Hin. }
  rewrite Hv. f_equal.
  apply dict_of_member, list_elem_of_lookup_1 in Hv as [j Hj].
  apply lookup_zip_Some in Hj as [Hname Hrow].
  rewrite list_lookup_fmap, Hname in Hrow. simpl in Hrow. congruence.
Qed.

(** X11.  When the text encoder embeds each class name on its own, the row
    that [infer] assembles for a category depends on the category alone,
    not on its position or on the other categories: the row of the
    classifier matrix for a known category, the embedding of the name
    otherwise.  Assembling for the same categories in another order gives
    the same rows in that order. *)
Theorem rows_follow_categories `{Backend} (self : SSC.t) (enc : string -> tensor)
    (x : images) (categories : list string) (template : string) :
  (forall names, encode_text template names = enc <$> names) ->
  categories <> [] ->
  rows_in_range self categories = true ->
  exists rows,
    SSC.build_classifier self x categories template
      = Returned (normalize <$> (to_like x <$> rows)) /\
    length rows = length categories /\
    forall k cat, categories !! k = Some cat -> rows !! k = row_for self enc cat.
Proof.
  intros Henc Hcats Hrange.
  destruct (build_classifier_spec self x categories template)
    as (rows & Hbuilt & Hlen & Hrows).
  { split; [exact Hcats|]. split; [exact Hrange|]. rewrite Henc. apply length_fmap. }
  exists rows. split; [exact Hbuilt|]. split; [exact Hlen|].
  intros k cat Hk. rewrite (Hrows k cat Hk). unfold row_for.
  destruct (SSC.cat2id self !! cat) eqn:Hcat; [reflexivity|].
  cbn zeta. rewrite Henc. apply rowwise_embedding.
  apply missing_classnames_spec. split; [|exact Hcat].
  eapply list_elem_of_lookup_2. eassumption.
Qed.

Lemma rows_follow_categories_witness :
  exists rows : list string,
    SSC.build_classifier (H := symbolic) pets "image" ["owl"; "dog"; "owl"] "a photo of {}."
      = Returned (String.append "unit " <$> rows) /\
    rows !! 2%nat = Some "a photo of {}.:owl".
Proof.
  destruct (rows_follow_categories (H := symbolic) pets
              (fun c => String.append "a photo of {}." (String.append ":" c))
              "image" ["owl"; "dog"; "owl"] "a photo of {}.")
    as (rows & Hbuilt & _ & Hrows); [reflexivity | discriminate | reflexivity |].
  exists rows. split.
  - rewrite Hbuilt. now rewrite list_fmap_id.
  - exact (Hrows 2%nat "owl" eq_refl).
Defined.

(** ** Calls that follow an assembling call *)

(** X12.  Once a call of [infer] has assembled a matrix, every later call
    with the reuse flag set scores its batch against that matrix and
    changes nothing, whatever [categories] and [template] it is given: the
    two arguments are not read while the cache exists. *)
Theorem later_calls_ignore_categories `{Backend} (self : SSC.t) (x : images)
    (categories : list string) (template : string) (once : bool) :
  can_assemble self template categories ->
  once = false \/ SSC.inference_classifier self = None ->
  exists built,
    SSC.build_classifier self x categories template = Returned built /\
    let after := (SSC.infer self x categories template once).2 in
    SSC.inference_classifier after = Some built /\
    forall x' categories' template',
      SSC.infer after x' categories' template' true
        = (Returned (similarity (normalize <$> backbone x') built), after).
Proof.
  intros Hcan Hfirst.
  destruct (build_classifier_spec self x categories template Hcan) as (rows & Hbuilt & _).
  eexists. split; [exact Hbuilt|]. cbn zeta.
  rewrite (infer_first self x categories template once _ Hfirst Hbuilt). simpl.
  split; reflexivity.
Qed.

Lemma later_calls_ignore_categories_witness :
  can_assemble (H := symbolic) pets "a photo of {}." ["dog"] /\
  exists built : list string,
    SSC.infer (H := symbolic)
      (SSC.infer (H := symbolic) pets "first" ["dog"] "a photo of {}." true).2
      "second" ["owl"; "fox"] "a sketch of {}." true
    = (Returned (["unit second"], built),
       (SSC.infer (H := symbolic) pets "first" ["dog"] "a photo of {}." true).2).
Proof.
  assert (Hcan : can_assemble (H := symbolic) pets "a photo of {}." ["dog"]).
  { split; [discriminate|]. split; reflexivity. }
  split; [exact Hcan|].
  destruct (later_calls_ignore_categories (H := symbolic) pets "first" ["dog"]
              "a photo of {}." true Hcan (or_intror eq_refl))
    as (built & _ & _ & Hlater).
  exists built. apply (Hlater "second" ["owl"; "fox"] "a sketch of {}.").
Defined.

(** The second call above is asked about owl and fox and answers with the
    one row assembled for dog. *)
Example stale_rows_for_other_categories :
  (SSC.infer (H := symbolic)
     (SSC.infer (H := symbolic) pets "first" ["dog"] "a photo of {}." true).2
     "second" ["owl"; "fox"] "a sketch of {}." true).1
  = Returned (["unit second"], ["unit unit a photo of a {}.:dog"]).
Proof. vm_compute. reflexivity. Qed.

(** ** An empty category list *)

(** X13.  With no category to stack, an assembling call of [infer] raises
    [RuntimeError] after it has called the text encoder on the empty list,
    and leaves the cache as it was; the evaluator given an empty class
    list and a loader with a batch therefore fails in its first batch with
    [RuntimeError], not with the division by zero of an empty loader. *)
Theorem empty_categories_raise `{Backend} (self : SSC.t) (x : images) (tgt : target)
    (rest : list (images * target)) (template : string) :
  SSC.infer self x [] template false = (Raised RuntimeError, after_encoding self []) /\
  SSC.evaluate_selective_inference self ((x, tgt) :: rest) template []
    = (Raised RuntimeError, after_encoding (SSC.drop_cache self) []).
Proof. split; reflexivity. Qed.

(** ** What the evaluator leaves on the model *)

Lemma eval_loop_keeps `{Backend} loader template classnames acc tot (model : SSC.t) :
  let after := (SSC.eval_loop loader template classnames acc tot model).2 in
  SSC.classifier after = SSC.classifier model /\
  SSC.cat2id after = SSC.cat2id model /\
  (SSC.text_encodings after = SSC.text_encodings model \/
   SSC.inference_classifier model = None /\
   SSC.text_encodings after
     = SSC.text_encodings model ++ [SSC.missing_classnames model classnames]).
Proof.
  cbn zeta. revert acc tot model.
  induction loader as [|[x tgt] rest IH]; intros acc tot model; cbn [SSC.eval_loop].
  - simpl. auto.
  - destruct (SSC.inference_classifier model) as [cached|] eqn:Hcache.
    + replace (SSC.infer model x classnames template true)
        with (Returned (similarity (normalize <$> backbone x) cached), model)
        by (unfold SSC.infer; now rewrite Hcache).
      destruct (IH (PrimFloat.add acc
                      (PrimFloat.mul
                         (cls_acc (similarity (normalize <$> backbone x) cached) tgt)
                         (PrimFloat.of_uint63
                            (len (similarity (normalize <$> backbone x) cached)))))
                   (tot + Uint63.to_Z (len (similarity (normalize <$> backbone x) cached)))
                   model)
        as (Hc & Hm & [Ht|[Hnone _]]); [auto|congruence].
    + destruct (SSC.build_classifier model x classnames template) as [built|e] eqn:Hbuilt.
      * rewrite (infer_first model x classnames template true built)
          by (auto using Hbuilt).
        rewrite (eval_loop_cached rest template classnames _ _ _ built) by reflexivity.
        simpl. auto.
      * replace (SSC.infer model x classnames template true)
          with (@Raised logits e,
                after_encoding model (SSC.missing_classnames model classnames))
          by (unfold SSC.infer, after_encoding; now rewrite Hbuilt, Hcache).
        simpl. auto.
Qed.

(** X14.  Whatever it is given, and also when it raises, the evaluator
    leaves the classifier matrix and the name-to-row mapping of the model
    as they were, and calls the text encoder at most once. *)
Theorem evaluator_keeps_parameters `{Backend} (model : SSC.t)
    (loader : list (images * target)) (template : string) (classnames : list string) :
  let after := (SSC.evaluate_selective_inference model loader template classnames).2 in
  SSC.classifier after = SSC.classifier model /\
  SSC.cat2id after = SSC.cat2id model /\
  (SSC.text_encodings after = SSC.text_encodings model \/
   SSC.text_encodings after
     = SSC.text_encodings model ++ [SSC.missing_classnames model classnames]) /\
  (loader = [] -> after = SSC.drop_cache model).
Proof.
  cbn zeta. unfold SSC.evaluate_selective_inference.
  pose proof (eval_loop_keeps loader template classnames 0 0 (SSC.drop_cache model))
    as (Hc & Hm & Ht).
  cbn zeta in Hc, Hm, Ht.
  destruct (SSC.eval_loop loader template classnames 0 0 (SSC.drop_cache model))
    as [[[acc tot]|e] after] eqn:Hloop; simpl in *;
    (split; [exact Hc|]; split; [exact Hm|]; split;
     [destruct Ht as [Ht|[_ Ht]]; [left; exact Ht|right; exact Ht]|]);
    intros ->; simpl in Hloop; congruence.
Qed.

(** ** The evaluation of the two splits *)

Section Splits.
Context `{Backend}.

Lemma cat2known_same (model model' : SSC.t) cats d :
  SSC.cat2id model' = SSC.cat2id model ->
  SSC.classifier model' = SSC.classifier model ->
  SSC.cat2known model' cats d = SSC.cat2known model cats d.
Proof.
  intros Hm Hc. revert d; induction cats as [|cat cats IH]; intros d; simpl; [reflexivity|].
  rewrite Hm. destruct (SSC.cat2id model !! cat) as [i|]; [|apply IH].
  rewrite Hc. destruct (SSC.classifier model !! i); [apply IH|reflexivity].
Qed.

Lemma build_classifier_same (model model' : SSC.t) x cats template :
  SSC.cat2id model' = SSC.cat2id model ->
  SSC.classifier model' = SSC.classifier model ->
  SSC.build_classifier model' x cats template = SSC.build_classifier model x cats template.
Proof.
  intros Hm Hc. unfold SSC.build_classifier, SSC.missing_classnames.
  now rewrite (cat2known_same model model'), Hm.
Qed.

Lemma evaluate_first (model : SSC.t) x tgt rest template classnames built :
  SSC.build_classifier model x classnames template = Returned built ->
  SSC.evaluate_selective_inference model ((x, tgt) :: rest) template classnames
    = (py_truediv (tally built ((x, tgt) :: rest) 0 0).1 (tally built ((x, tgt) :: rest) 0 0).2,
       with_cache model built (SSC.missing_classnames model classnames)).
Proof.
  intros Hbuilt. unfold SSC.evaluate_selective_inference. cbn [SSC.eval_loop].
  rewrite (infer_assembles (SSC.drop_cache model) x classnames template built)
    by (try reflexivity; now rewrite build_classifier_drop_cache).
  rewrite (eval_loop_cached rest template classnames _ _ _ built) by reflexivity.
  cbn [tally]. destruct (tally built rest _ _) as [acc tot]. reflexivity.
Qed.

Lemma result_keys (k1 k2 : string) (a b : float) :
  dom (dict_of [(k1, a); (k2, b)]) = ({[k1; k2]} : gset string) /\
  (k1 <> k2 -> dict_of [(k1, a); (k2, b)] !! k1 = Some a) /\
  dict_of [(k1, a); (k2, b)] !! k2 = Some b.
Proof.
  unfold dict_of. simpl. split; [|split].
  - rewrite !dom_insert_L, dom_empty_L. apply set_eq. intros k.
    rewrite !elem_of_union, !elem_of_singleton, elem_of_empty. tauto.
  - intros Hne. rewrite lookup_insert_ne by congruence. apply lookup_insert_eq.
  - apply lookup_insert_eq.
Qed.

End Splits.

(** X15.  In the base-to-new setting the evaluation at the end of
    [run_twostage] scores each split against the matrix assembled for the
    class names of that split: the matrix cached by the evaluation of the
    base split takes no part in the accuracy of the new split.  A result
    has exactly the keys acc_test_base and acc_test_new, the text encoder
    has been called once per split, and the model is left with the matrix
    of the new split.  With a single test loader the result has the one
    key acc_test. *)
Theorem splits_scored_on_their_own_matrix `{Backend} (model : SSC.t) (dataset : Dataset.t)
    (template : string) (others : list string)
    (xb xn : images) (tb tn : target) (restb restn : list (images * target)) :
  Dataset.template dataset = template :: others ->
  can_assemble model template (Dataset.test_classnames dataset) ->
  can_assemble model template (Dataset.test_new_classnames dataset) ->
  let base := (xb, tb) :: restb in
  let new := (xn, tn) :: restn in
  exists built_base built_new,
    SSC.build_classifier model xb (Dataset.test_classnames dataset) template
      = Returned built_base /\
    SSC.build_classifier model xn (Dataset.test_new_classnames dataset) template
      = Returned built_new /\
    (forall result,
       (test_after_training model dataset (BaseAndNew base new)).1 = Returned result ->
       exists a b,
         py_truediv (tally built_base base 0 0).1 (tally built_base base 0 0).2 = Returned a /\
         py_truediv (tally built_new new 0 0).1 (tally built_new new 0 0).2 = Returned b /\
         result !! "acc_test_base" = Some a /\
         result !! "acc_test_new" = Some b /\
         dom result = ({["acc_test_base"; "acc_test_new"]} : gset string) /\
         SSC.inference_classifier (test_after_training model dataset (BaseAndNew base new)).2
           = Some built_new /\
         SSC.text_encodings (test_after_training model dataset (BaseAndNew base new)).2
           = SSC.text_encodings model
             ++ [SSC.missing_classnames model (Dataset.test_classnames dataset);
                 SSC.missing_classnames model (Dataset.test_new_classnames dataset)]) /\
    (forall test result,
       (test_after_training model dataset (AllCategories test)).1 = Returned result ->
       dom result = ({["acc_test"]} : gset string)).
Proof.
  intros Htemplate Hbase Hnew base new.
  destruct (build_classifier_spec model xb _ template Hbase) as (rows_b & Hbuilt_b & _).
  destruct (build_classifier_spec model xn _ template Hnew) as (rows_n & Hbuilt_n & _).
  eexists. eexists. split; [exact Hbuilt_b|]. split; [exact Hbuilt_n|].
  unfold test_after_training. rewrite Htemplate. subst base new. split.
  - intros result.
    rewrite (evaluate_first model xb tb restb template _ _ Hbuilt_b).
    destruct (py_truediv _ _) as [a|e] eqn:Ha; [|discriminate].
    rewrite (evaluate_first _ xn tn restn template _ (normalize <$> (to_like xn <$> rows_n)))
      by (rewrite <- Hbuilt_n; now apply build_classifier_same).
    destruct (py_truediv (tally (normalize <$> (to_like xn <$> rows_n)) _ 0 0).1 _)
      as [b|e] eqn:Hb; [|discriminate].
    simpl. intros [= <-]. exists a, b.
    destruct (result_keys "acc_test_base" "acc_test_new" a b) as (Hdom & Hfirst & Hsecond).
    split; [first [exact Ha | reflexivity]|]. split; [first [exact Hb | reflexivity]|].
    split; [apply Hfirst; discriminate|]. split; [exact Hsecond|].
    split; [exact Hdom|]. split; [reflexivity|].
    now rewrite <- app_assoc.
  - intros test result.
    destruct (SSC.evaluate_selective_inference model test template _) as [[acc|e] model1];
      [|discriminate].
    simpl. intros [= <-]. unfold dict_of. simpl.
    rewrite dom_insert_L, dom_empty_L. set_solver.
Qed.

Lemma splits_scored_on_their_own_matrix_witness :
  can_assemble (H := symbolic) pets "a photo of a {}." (Dataset.test_new_classnames pets_dataset) /\
  exists built_new : list string,
    SSC.build_classifier (H := symbolic) pets "new batch"
      (Dataset.test_new_classnames pets_dataset) "a photo of a {}." = Returned built_new.
Proof.
  assert (Hbase : can_assemble (H := symbolic) pets "a photo of a {}."
                    (Dataset.test_classnames pets_dataset)).
  { split; [discriminate|]. split; reflexivity. }
  assert (Hnew : can_assemble (H := symbolic) pets "a photo of a {}."
                   (Dataset.test_new_classnames pets_dataset)).
  { split; [discriminate|]. split; reflexivity. }
  split; [exact Hnew|].
  destruct (splits_scored_on_their_own_matrix (H := symbolic) pets pets_dataset
              "a photo of a {}." [] "base batch" "new batch" tt tt [] []
              eq_refl Hbase Hnew)
    as (built_base & built_new & _ & Hbuilt & _).
  exists built_new. exact Hbuilt.
Defined.

(** On the pets the new split is scored against the rows of owl and fox,
    and the encoder has been asked for nothing on the base split and for
    both names on the new one. *)
Example pets_base_to_new :
  let r := test_after_training (H := symbolic) pets pets_dataset
             (BaseAndNew (H := symbolic) [("base batch", tt)] [("new batch", tt)]) in
  SSC.inference_classifier r.2
    = Some ["unit a photo of a {}.:owl"; "unit a photo of a {}.:fox"] /\
  SSC.text_encodings r.2 = [[]; ["owl"; "fox"]] /\
  r.1 = Returned (dict_of [("acc_test_base", 50%float); ("acc_test_new", 50%float)]).
Proof. vm_compute. auto. Qed.

(** ** Inference on the training classes *)

Lemma known_everywhere `{Backend} (self : SSC.t) (classnames : list string) :
  SSC.cat2id self = enumerate_dict classnames ->
  SSC.missing_classnames self classnames = [].
Proof.
  intros Hmap. destruct (SSC.missing_classnames self classnames) as [|cat rest] eqn:Hmissing;
    [reflexivity|exfalso].
  assert (Hin : cat ∈ SSC.missing_classnames self classnames)
    by (rewrite Hmissing; apply list_elem_of_here).
  apply missing_classnames_spec in Hin as [Hin Hnone]. rewrite Hmap in Hnone.
  destruct (dict_of_present (zip classnames (seq 0 (length classnames))) cat) as [i Hi].
  - now rewrite enumerate_keys.
  - unfold enumerate_dict in Hnone. congruence.
Qed.

(** X16.  On the class names the instance was built with, when they are
    distinct and the cast to the batch is the identity, an assembling call
    of [infer] returns the logits that [forward] returns for the same
    batch, and sends no class name to the text encoder: every row comes
    from the trained classifier matrix, in its order. *)
Theorem infer_agrees_with_forward `{Backend} (self : SSC.t) (classnames : list string)
    (x : images) (template : string) (once : bool) :
  SSC.cat2id self = enumerate_dict classnames ->
  length (SSC.classifier self) = length classnames ->
  NoDup classnames -> classnames <> [] ->
  encode_text template [] = [] ->
  (forall row, to_like x row = row) ->
  once = false \/ SSC.inference_classifier self = None ->
  (SSC.infer self x classnames template once).1 = Returned (SSC.forward self x) /\
  SSC.text_encodings (SSC.infer self x classnames template once).2
    = SSC.text_encodings self ++ [[]].
Proof.
  intros Hmap Hlen Hnd Hne Hnone Hcast Hfirst.
  pose proof (known_everywhere self classnames Hmap) as Hmissing.
  destruct (build_classifier_spec self x classnames template)
    as (rows & Hbuilt & Hrows_len & Hrows).
  { split; [exact Hne|]. split.
    - now apply rows_in_range_enumerated with (classnames := classnames).
    - now rewrite Hmissing, Hnone. }
  assert (Hsame : rows = SSC.classifier self).
  { apply list_eq. intros k.
    destruct (classnames !! k) as [cat|] eqn:Hk.
    - rewrite (Hrows k cat Hk), Hmap.
      replace (enumerate_dict classnames !! cat) with (Some k); [reflexivity|].
      symmetry. apply dict_of_nodup with (j := k).
      + now rewrite enumerate_keys.
      + now apply enumerate_pairs.
    - apply lookup_ge_None in Hk.
      rewrite (proj2 (lookup_ge_None rows k)), (proj2 (lookup_ge_None _ k)); [reflexivity| |];
        lia. }
  assert (Hid : to_like x <$> rows = rows).
  { rewrite <- (list_fmap_id rows) at 2. apply list_fmap_ext. intros _ row _. apply Hcast. }
  rewrite (infer_first self x classnames template once _ Hfirst Hbuilt).
  simpl. rewrite Hmissing, Hid, Hsame. split; reflexivity.
Qed.

Lemma infer_agrees_with_forward_witness :
  NoDup ["dog"; "cat"] /\
  (SSC.infer (H := symbolic) pets "image" ["dog"; "cat"] "a photo of {}." true).1
  = Returned (SSC.forward (H := symbolic) pets "image").
Proof.
  assert (Hnd : NoDup ["dog"; "cat"]).
  { apply NoDup_cons. split; [|apply NoDup_singleton].
    intros Hin. apply list_elem_of_singleton in Hin. discriminate. }
  split; [exact Hnd|].
  apply (infer_agrees_with_forward (H := symbolic) pets ["dog"; "cat"] "image"
           "a photo of {}." true);
    [reflexivity | reflexivity | exact Hnd | discriminate | reflexivity
    | reflexivity | right; reflexivity].
Defined.

(** * The two stages of [run_twostage] *)

Lemma while_below_calls epoch dbg budget epochs s count out st :
  while_below epoch dbg budget epochs s count out = Some (Returned st) ->
  exists n,
    epoch_calls epoch budget n
      {| stage_count := count; stage_sched := s; stage_rest := epochs;
         stage_printed := out |} st /\
    (if dbg then (n <= 1)%nat else budget <= stage_count st).
Proof.
  revert s count out.
  induction epochs as [|e rest IH]; intros s count out; cbn [while_below];
    destruct (Z.ltb_spec count budget) as [Hlt|Hge]; try discriminate.
  - intros [= <-]. exists 0%nat. split; [constructor|]. destruct dbg; simpl; lia.
  - destruct (epoch_outcome (epoch s e count budget)) as [c|ex] eqn:Hc; [|discriminate].
    destruct dbg.
    + intros [= <-]. exists 1%nat. split; [|lia].
      eapply calls_next; [exact Hlt|exact Hc|constructor].
    + intros Hrun. apply IH in Hrun as (n & Hcalls & Hend).
      exists (S n). split; [|exact Hend].
      eapply calls_next; eassumption.
  - intros [= <-]. exists 0%nat. split; [constructor|]. destruct dbg; simpl; lia.
Qed.

Lemma while_below_within good epoch dbg budget epochs s count out st :
  advances_on good epoch -> count <= budget ->
  while_below epoch dbg budget epochs s count out = Some (Returned st) ->
  count <= stage_count st <= budget.
Proof.
  intros Hepoch. revert s count out.
  induction epochs as [|e rest IH]; intros s count out Hle; cbn [while_below];
    destruct (Z.ltb_spec count budget) as [Hlt|Hge]; try discriminate;
    try (intros [= <-]; simpl; lia).
  destruct (Hepoch s e count budget Hlt) as (Hret & _).
  destruct (epoch_outcome (epoch s e count budget)) as [c|ex]; [|discriminate].
  specialize (Hret c eq_refl). destruct dbg.
  - intros [= <-]. simpl. lia.
  - intros Hrun. apply IH in Hrun; lia.
Qed.

Lemma second_stage_advances `{LrSchedule} :
  advances_on productive TwoStage.train_epoch_second_stage.
Proof.
  intros s e count budget Hlt. rewrite second_stage_same. now apply twostage_advances.
Qed.

(** C7, as amended.  With [total_iters = n_iters * shots] and a fraction
    that is not negative, the stage-1 sub-budget is the double product of
    the two rounded down.  When it does not exceed [total_iters], a run of
    [run_twostage] that ends consists of calls of [train_epoch] made one
    after the other from counter 0, each started below the sub-budget,
    then of calls of [train_epoch_second_stage] from the counter stage 1
    left, each started below [total_iters], with a scheduler whose horizon
    is [total_iters] minus that counter.  Outside debug mode stage 1 ends
    with the counter at the sub-budget and stage 2 with the counter at
    [total_iters], each scheduler stepped to its horizon, and the run does
    end when it is given [total_iters] passes on each of which some step
    is not skipped.  In debug mode each stage makes at most one call and
    may stop below its budget. *)
Theorem two_stage_budgets `{LrSchedule} (a : args) (epochs : list (list batch))
    (cosine : Z) :
  0 <= n_iters a * shots a < 2 ^ 63 ->
  PrimFloat.leb 0 (n_iters_frac a) = true ->
  Orchestrator.cosine_iters_of a = Returned cosine ->
  cosine <= n_iters a * shots a ->
  let total := n_iters a * shots a in
  (exists x, py_mul_int_float total (n_iters_frac a) = Returned x /\
             float_floor x = Some cosine) /\
  (forall run, Orchestrator.run_twostage a epochs = Some (Returned run) ->
     total_iters run = total /\
     cosine_iters run = cosine /\
     second_stage_iters run = total - stage_count (first_stage run) /\
     T_max (stage_sched (second_stage run)) = second_stage_iters run /\
     exists n1 n2,
       epoch_calls TwoStage.train_epoch cosine n1
         {| stage_count := 0; stage_sched := CosineAnnealingLR cosine;
            stage_rest := epochs; stage_printed := [] |} (first_stage run) /\
       epoch_calls TwoStage.train_epoch_second_stage total n2
         {| stage_count := stage_count (first_stage run);
            stage_sched := CosineAnnealingLR (second_stage_iters run);
            stage_rest := stage_rest (first_stage run);
            stage_printed := stage_printed (first_stage run) |} (second_stage run) /\
       if debug a then
         (n1 <= 1)%nat /\ (n2 <= 1)%nat /\
         0 <= stage_count (first_stage run) <= cosine /\
         stage_count (first_stage run) <= stage_count (second_stage run) <= total
       else
         stage_count (first_stage run) = cosine /\
         stage_count (second_stage run) = total /\
         last_epoch (stage_sched (first_stage run)) = cosine /\
         last_epoch (stage_sched (second_stage run)) = total - cosine) /\
  (debug a = false ->
   Forall (fun e => productive e = true) epochs ->
   total <= Z.of_nat (length epochs) ->
   exists run, Orchestrator.run_twostage a epochs = Some (Returned run)).
Proof.
  intros Htotal Hfrac Hcosine Hsub total.
  pose proof Hcosine as Hprod. unfold Orchestrator.cosine_iters_of in Hprod.
  change (Orchestrator.total_iters_of a) with total in Hprod.
  destruct (py_mul_int_float total (n_iters_frac a)) as [x|ex] eqn:Hx;
    simpl in Hprod; [|discriminate].
  assert (Hpos : 0 <= cosine) by (eapply cosine_iters_not_negative; eassumption).
  split; [|split].
  - exists x. split; [reflexivity|]. eapply cosine_iters_rounds_down; eassumption.
  - intros run Hrun.
    destruct (run_twostage_stages a epochs run Hrun)
      as (Hrun_total & Hcos & Hst1 & Hsecond & Hst2).
    rewrite Hcosine in Hcos. injection Hcos as Hcos.
    fold total in Hrun_total. rewrite <- Hcos, Hrun_total in *.
    destruct (while_below_calls _ _ _ _ _ _ _ _ Hst1) as (n1 & Hcalls1 & Hend1).
    destruct (while_below_calls _ _ _ _ _ _ _ _ Hst2) as (n2 & Hcalls2 & Hend2).
    pose proof (while_below_within _ _ _ _ _ _ _ _ _ twostage_advances Hpos Hst1) as Hin1.
    assert (Hle : stage_count (first_stage run) <= total) by lia.
    pose proof (while_below_within _ _ _ _ _ _ _ _ _ second_stage_advances Hle Hst2) as Hin2.
    destruct (while_below_in_step _ _ _ _ _ _ _ _ twostage_in_step Hst1) as [Hl1 _].
    destruct (while_below_in_step _ _ _ _ _ _ _ _ second_stage_in_step Hst2) as [Hl2 Ht2].
    simpl in Hl1, Hl2, Ht2.
    split; [reflexivity|]. split; [reflexivity|]. split; [exact Hsecond|].
    split; [exact Ht2|].
    exists n1, n2. split; [exact Hcalls1|]. split; [exact Hcalls2|].
    destruct (debug a).
    + repeat split; lia.
    + repeat split; lia.
  - intros Hdebug Hpasses Hlen. unfold Orchestrator.run_twostage.
    rewrite Hcosine, Hdebug. change (Orchestrator.total_iters_of a) with total.
    destruct (while_below_returns TwoStage.train_epoch cosine epochs
                (CosineAnnealingLR cosine) 0 [])
      as (st1 & Hst1 & Hrest & Hleft); auto using first_stage_budgeted; [lia|].
    rewrite Hst1.
    apply while_below_reaches in Hst1 as [Hc1 _];
      [|apply first_stage_budgeted|exact Hpos].
    destruct (while_below_returns TwoStage.train_epoch_second_stage total (stage_rest st1)
                (CosineAnnealingLR (total - stage_count st1)) (stage_count st1)
                (stage_printed st1))
      as (st2 & -> & _); auto using second_stage_budgeted; [lia|lia|].
    eauto.
Qed.

Lemma two_stage_budgets_witness :
  Orchestrator.cosine_iters_of half_and_half = Returned 3 /\
  Forall (fun e => productive e = true) six_passes /\
  exists run,
    Orchestrator.run_twostage (H := flat_lr) half_and_half six_passes = Some (Returned run) /\
    stage_count (first_stage run) = 3 /\
    stage_count (second_stage run) = 6 /\
    last_epoch (stage_sched (first_stage run)) = 3 /\
    last_epoch (stage_sched (second_stage run)) = 3 /\
    T_max (stage_sched (second_stage run)) = 3 /\
    exists n1 n2,
      epoch_calls (TwoStage.train_epoch (H := flat_lr)) 3 n1
        {| stage_count := 0; stage_sched := CosineAnnealingLR 3;
           stage_rest := six_passes; stage_printed := [] |} (first_stage run) /\
      epoch_calls (TwoStage.train_epoch_second_stage (H := flat_lr)) 6 n2
        {| stage_count := 3; stage_sched := CosineAnnealingLR 3;
           stage_rest := stage_rest (first_stage run);
           stage_printed := stage_printed (first_stage run) |} (second_stage run).
Proof.
  assert (Hcosine : Orchestrator.cosine_iters_of half_and_half = Returned 3)
    by (vm_compute; reflexivity).
  assert (Hpasses : Forall (fun e => productive e = true) six_passes)
    by (repeat constructor).
  split; [exact Hcosine|]. split; [exact Hpasses|].
  destruct (two_stage_budgets (H := flat_lr) half_and_half six_passes 3)
    as (_ & Hruns & Hends);
    [simpl; lia | vm_compute; reflexivity | exact Hcosine | simpl; lia |].
  destruct (Hends eq_refl Hpasses) as [run Hrun]; [simpl; lia|].
  exists run. split; [exact Hrun|].
  destruct (Hruns run Hrun) as (_ & _ & Hsecond & Hmax & n1 & n2 & Hcalls1 & Hcalls2 & Hstop).
  simpl in Hstop. destruct Hstop as (Hc1 & Hc2 & Hl1 & Hl2).
  rewrite Hc1 in Hsecond. rewrite Hsecond in Hmax, Hcalls2. rewrite Hc1 in Hcalls2.
  split; [exact Hc1|]. split; [exact Hc2|]. split; [exact Hl1|].
  split; [exact Hl2|]. split; [exact Hmax|].
  exists n1, n2. split; [exact Hcalls1 | exact Hcalls2].
Defined.

(** C7 as stated fails in debug mode: with [n_iters = 3], [shots = 2] and
    a fraction of one half the sub-budget is 3 and [total_iters] is 6, but
    stage 1 ends after its one pass of two batches with the counter at 2,
    and stage 2, given a horizon of 4, ends after its one pass with the
    counter at 4. *)
Lemma debug_stops_short_of_budgets :
  debug half_and_half_debug = true /\
  exists run,
    Orchestrator.run_twostage (H := flat_lr) half_and_half_debug six_passes
      = Some (Returned run) /\
    total_iters run = 6 /\ cosine_iters run = 3 /\
    stage_count (first_stage run) = 2 /\
    stage_count (first_stage run) <> cosine_iters run /\
    second_stage_iters run = 4 /\
    stage_count (second_stage run) = 4 /\
    stage_count (second_stage run) <> total_iters run.
Proof.
  split; [reflexivity|].
  destruct (Orchestrator.run_twostage (H := flat_lr) half_and_half_debug six_passes)
    as [[run|ex]|] eqn:Hrun; vm_compute in Hrun; try discriminate.
  exists run. split; [reflexivity|].
  injection Hrun as <-. vm_compute. repeat split; discriminate.
Qed.

(** * Normalised class embeddings *)

Lemma build_classifier_normalised `{Backend} (self : SSC.t) x cats template built :
  SSC.build_classifier self x cats template = Returned built -> normalised built.
Proof.
  unfold SSC.build_classifier. cbn zeta.
  destruct (SSC.cat2known self cats ∅) as [known|e]; [|discriminate].
  cbn [and_then].
  destruct (SSC.pick_rows _ known cats) as [rows|e]; [|discriminate].
  cbn [and_then].
  destruct (stack rows) as [stacked|e]; [|discriminate].
  cbn [and_then]. intros [= <-]. now exists (to_like x <$> stacked).
Qed.

Lemma infer_cache_normalised `{Backend} (self : SSC.t) x cats template once :
  cache_normalised self -> cache_normalised (SSC.infer self x cats template once).2.
Proof.
  intros Hcache. unfold SSC.infer.
  destruct (if once then SSC.inference_classifier self else None) as [cached|] eqn:Hc.
  - exact Hcache.
  - destruct (SSC.build_classifier self x cats template) as [built|e] eqn:Hb.
    + simpl. eapply build_classifier_normalised, Hb.
    + exact Hcache.
Qed.

Lemma eval_loop_cache_normalised `{Backend} loader template classnames acc tot
    (model : SSC.t) :
  cache_normalised model ->
  cache_normalised (SSC.eval_loop loader template classnames acc tot model).2.
Proof.
  revert acc tot model.
  induction loader as [|[x tgt] rest IH]; intros acc tot model Hcache;
    cbn [SSC.eval_loop]; [exact Hcache|].
  pose proof (infer_cache_normalised model x classnames template true Hcache) as Hnext.
  destruct (SSC.infer model x classnames template true) as [[lg|e] model'].
  - apply IH, Hnext.
  - exact Hnext.
Qed.

(** C9.  Unit norm of a row is carried by the row being a result of the
    row normalisation [normalize].  The constructor stores the text
    embeddings normalised row by row, then converted to float, and leaves
    no cached matrix.  [forward] passes to the similarity the stored rows
    normalised again.  For an instance whose cached matrix, if there is
    one, is normalised, every logits that [infer] returns are the
    similarity with a normalised matrix, and that matrix is the one the
    call leaves cached; [infer] and the evaluator, whether they return or
    raise, leave an instance whose cached matrix is normalised. *)
Theorem similarity_rows_normalised `{Backend} (self : SSC.t) (x : images)
    (categories classnames : list string) (template : string)
    (compute_classifier_once : bool) (loader : list (images * target)) :
  cache_normalised self ->
  (exists embedded, normalised embedded /\
     SSC.classifier (SSC.init classnames template) = to_float <$> embedded /\
     SSC.inference_classifier (SSC.init classnames template) = None) /\
  (exists matrix, normalised matrix /\
     matrix = normalize <$> SSC.classifier self /\
     SSC.forward self x = similarity (normalize <$> backbone x) matrix) /\
  (forall lg,
     (SSC.infer self x categories template compute_classifier_once).1 = Returned lg ->
     exists matrix, normalised matrix /\
       lg = similarity (normalize <$> backbone x) matrix /\
       SSC.inference_classifier
         (SSC.infer self x categories template compute_classifier_once).2
         = Some matrix) /\
  cache_normalised (SSC.infer self x categories template compute_classifier_once).2 /\
  cache_normalised (SSC.evaluate_selective_inference self loader template classnames).2.
Proof.
  intros Hcache. split; [|split; [|split; [|split]]].
  - exists (normalize <$> encode_text template classnames).
    split; [now eexists|]. split; reflexivity.
  - exists (normalize <$> SSC.classifier self).
    split; [now eexists|]. split; reflexivity.
  - intros lg. unfold SSC.infer.
    destruct (if compute_classifier_once then SSC.inference_classifier self else None)
      as [cached|] eqn:Hc.
    + simpl. intros [= <-]. exists cached.
      destruct compute_classifier_once; [|discriminate].
      unfold cache_normalised in Hcache. rewrite Hc in Hcache.
      split; [exact Hcache|]. split; [reflexivity|exact Hc].
    + destruct (SSC.build_classifier self x categories template) as [built|e] eqn:Hb;
        simpl; [|discriminate].
      intros [= <-]. exists built.
      split; [eapply build_classifier_normalised, Hb|]. split; reflexivity.
  - now apply infer_cache_normalised.
  - unfold SSC.evaluate_selective_inference.
    pose proof (eval_loop_cache_normalised loader template classnames 0 0
                  (SSC.drop_cache self) I) as Hloop.
    destruct (SSC.eval_loop loader template classnames 0 0 (SSC.drop_cache self))
      as [[[acc tot]|e] model']; exact Hloop.
Qed.

Lemma similarity_rows_normalised_witness :
  cache_normalised (H := symbolic) pets /\
  exists matrix,
    normalised (H := symbolic) matrix /\
    (SSC.infer (H := symbolic) pets "photo" ["owl"; "dog"] "a photo of a {}." true).1
      = Returned (["unit photo"], matrix) /\
    SSC.inference_classifier
      (SSC.infer (H := symbolic) pets "photo" ["owl"; "dog"] "a photo of a {}." true).2
      = Some matrix.
Proof.
  assert (Hcache : cache_normalised (H := symbolic) pets) by exact I.
  split; [exact Hcache|].
  destruct (similarity_rows_normalised (H := symbolic) pets "photo" ["owl"; "dog"]
              ["dog"; "cat"] "a photo of a {}." true [] Hcache)
    as (_ & _ & Hinfer & _).
  destruct (Hinfer _ eq_refl) as (matrix & Hunit & Hlogits & Hleft).
  exists matrix. split; [exact Hunit|]. split; [|exact Hleft].
  simpl in Hlogits. injection Hlogits as <-. reflexivity.
Defined.
